(** * Token-card renderer of trendbot: text wrapping, layout and truncation

    A shallow embedding of [generateImageForCast] (src/index.ts, lines
    179-413): the word-wrap loop, the text-box geometry, the truncation of
    the visible lines with its character-by-character ellipsis fitting, and
    the sequence of canvas calls the function issues; and of the pure part
    of [selectBestCastWithLLM] (lines 100-176): the list of casts of the
    prompt and the reading of the answer by its three regular expressions.

    Conventions of the embedding.
    - A JavaScript string is a [string]; each character stands for one
      UTF-16 code unit.
    - A width returned by [ctx.measureText] is a rational number ([Q]); the
      measurement backend is a function from the current [ctx.font] and the
      text to its width.
    - Pixel coordinates and the layout constants are integers ([Z]); all of
      them are small integers on which the doubles of the source are exact.
    - The canvas is the log of the calls made on its 2D context together
      with the current font, which [measureText] reads.
    - The only loop of the function that need not terminate, the ellipsis
      fitting [while], is run on fuel; running out of fuel is [None]. *)

From Stdlib Require Import String Ascii List ZArith QArith Lia Bool.
From Stdlib Require DecimalString DecimalNat.
Import ListNotations.

Open Scope string_scope.
Open Scope Z_scope.

(** ** JavaScript string and array primitives used by the renderer *)

Module JS.

(** Truthiness of a string: the empty string is falsy. *)
Definition truthy (s : string) : bool :=
  match s with
  | EmptyString => false
  | String _ _ => true
  end.

(** [s.includes(c)] for a one-character needle. *)
Fixpoint includes (c : ascii) (s : string) : bool :=
  match s with
  | EmptyString => false
  | String a rest => if Ascii.eqb a c then true else includes c rest
  end.

(** [s.split(c)] for a one-character separator: never empty, and
    consecutive separators delimit empty pieces. *)
Fixpoint split (c : ascii) (s : string) : list string :=
  match s with
  | EmptyString => [EmptyString]
  | String a rest =>
      if Ascii.eqb a c then EmptyString :: split c rest
      else match split c rest with
           | piece :: pieces => String a piece :: pieces
           | [] => [String a EmptyString]
           end
  end.

(** [s.slice(0, -1)]: the string without its last code unit; the empty
    string stays empty. *)
Fixpoint dropLast (s : string) : string :=
  match s with
  | EmptyString => EmptyString
  | String a rest =>
      match rest with
      | EmptyString => EmptyString
      | String _ _ => String a (dropLast rest)
      end
  end.

(** [arr.slice(0, e)]: a negative [e] counts from the end of the array. *)
Definition slice0 {A : Type} (arr : list A) (e : Z) : list A :=
  if e <? 0
  then firstn (Z.to_nat (Z.of_nat (length arr) + e)) arr
  else firstn (Z.to_nat e) arr.

(** [s.substring(0, 1)]. *)
Definition substring01 (s : string) : string :=
  match s with
  | EmptyString => EmptyString
  | String a _ => String a EmptyString
  end.

(** [toUpperCase] on one code unit: the letters a-z are mapped to A-Z.
    Code units outside ASCII are left as they are. *)
Definition upperAscii (a : ascii) : ascii :=
  let n := nat_of_ascii a in
  if ((97 <=? n)%nat && (n <=? 122)%nat)%bool then ascii_of_nat (n - 32) else a.

Fixpoint toUpperCase (s : string) : string :=
  match s with
  | EmptyString => EmptyString
  | String a rest => String (upperAscii a) (toUpperCase rest)
  end.

(** [x > y] on widths. *)
Definition gt (x y : Q) : bool := negb (Qle_bool x y).

End JS.

(** The two separators of the wrap loop. *)
Definition SPACE : ascii := " "%char.
Definition LF : ascii := ascii_of_nat 10.

(** A string that is one line break. *)
Definition NL : string := String LF "".

(** [p] is an initial segment of [s]. *)
Definition isPrefix (p s : string) : Prop := exists rest, s = p ++ rest.

(** ** Word wrapping (lines 236-276) *)

Section Wrap.

(** [ctx.measureText(_).width] under the font in force, and the width
    budget of a line. *)
Variable measureText : string -> Q.
Variable maxWidth : Q.

(** The two variables the loop updates. *)
Record WrapState : Type := mkWrap {
  lines : list string;
  currentLine : string
}.

Definition push (st : WrapState) (line : string) : WrapState :=
  mkWrap (lines st ++ [line])%list (currentLine st).

Definition setCurrent (st : WrapState) (line : string) : WrapState :=
  mkWrap (lines st) line.

(** The [for] loop of line 253: [parts[1]] to [parts[parts.length - 2]]. *)
Definition interior (parts : list string) : list string :=
  firstn (length parts - 2) (skipn 1 parts).

(** Lines 244-260: a word that contains a line break. *)
Definition breakWord (st : WrapState) (word : string) : WrapState :=
  let parts := JS.split LF word in
  let part0 := nth 0 parts "" in
  let st1 :=
    if JS.truthy (currentLine st) then
      setCurrent
        (push st (currentLine st ++ (if JS.truthy part0 then " " ++ part0 else "")))
        ""
    else if JS.truthy part0 then push st part0
    else st in
  let st2 := fold_left push (interior parts) st1 in
  if (1 <? length parts)%nat
  then setCurrent st2 (last parts "")
  else st2.

(** Lines 263-271: a word without a line break. *)
Definition plainWord (st : WrapState) (word : string) : WrapState :=
  let testLine :=
    currentLine st ++ (if JS.truthy (currentLine st) then " " else "") ++ word in
  if (JS.gt (measureText testLine) maxWidth && JS.truthy (currentLine st))%bool
  then setCurrent (push st (currentLine st)) word
  else setCurrent st testLine.

(** One iteration of the loop of line 240. *)
Definition wrapStep (st : WrapState) (word : string) : WrapState :=
  if JS.includes LF word then breakWord st word else plainWord st word.

(** Lines 274-276: the accumulator is flushed when it is not empty. *)
Definition flush (st : WrapState) : list string :=
  if JS.truthy (currentLine st)
  then (lines st ++ [currentLine st])%list
  else lines st.

Definition wrapWords (words : list string) : list string :=
  flush (fold_left wrapStep words (mkWrap [] "")).

(** Lines 236-276 as a whole. *)
Definition wrapText (castText : string) : list string :=
  wrapWords (JS.split SPACE castText).


(** The number of lines the state stands for: those pushed, and the
    accumulator when it is not empty. *)
Definition pending (st : WrapState) : nat :=
  (length (lines st) + (if JS.truthy (currentLine st) then 1 else 0))%nat.

(** Width of the lines: the property kept by the loop. *)
Definition lineOK (words : list string) (line : string) : Prop :=
  (measureText line <= maxWidth)%Q \/ In line words.

(** The accumulator is within the budget or has no space. *)
Definition curKind (cur : string) : Prop :=
  (measureText cur <= maxWidth)%Q \/ JS.includes SPACE cur = false.

(** A line flushed at a forced break: the accumulator joined by a space to
    the first piece of a word that contains a line break. *)
Definition brokenFlush (words : list string) (line : string) : Prop :=
  exists cur word,
    In word words /\ JS.includes LF word = true
    /\ line = cur ++ " " ++ hd "" (JS.split LF word).

(** The three kinds of wrapped lines: within the budget, without a space,
    or flushed at a forced break. *)
Definition lineKind (words : list string) (line : string) : Prop :=
  (measureText line <= maxWidth)%Q
  \/ JS.includes SPACE line = false
  \/ brokenFlush words line.

End Wrap.

Arguments lines _ : clear implicits.
Arguments currentLine _ : clear implicits.

(** ** Text-box geometry (lines 279-291 and 336-339) *)

Definition width : Z := 1200.
Definition height : Z := 1200.
Definition lineHeight : Z := 48.
Definition textBoxPadding : Z := 40.
Definition textBoxY : Z := 340.
Definition maxTextBoxHeight : Z := 460.
Definition cornerRadius : Z := 20.

Definition textHeight (lineCount : nat) : Z := Z.of_nat lineCount * lineHeight.

Definition textBoxHeight (lineCount : nat) : Z :=
  Z.min (textHeight lineCount + textBoxPadding * 2) maxTextBoxHeight.

(** [Math.floor] of the quotient: the divisor is positive, so this is the
    floor division of [Z]. *)
Definition maxVisibleLines (lineCount : nat) : Z :=
  (textBoxHeight lineCount - textBoxPadding * 2) / lineHeight.

Definition visibleLines (wrapped : list string) : list string :=
  JS.slice0 wrapped (maxVisibleLines (length wrapped)).

(** The second conjunct of the test of line 345: content was cut. *)
Definition truncated (wrapped : list string) : bool :=
  Z.of_nat (length wrapped) >? maxVisibleLines (length wrapped).

(** ** Ellipsis fitting (lines 347-350) *)

Section Fit.

Variable measureText : string -> Q.
Variable maxWidth : Q.

(** The guard of the [while] of line 348. *)
Definition tooWide (truncatedLine : string) : bool :=
  JS.gt (measureText (truncatedLine ++ "...")) maxWidth.

(** The [while] loop: one unit of fuel per evaluation of the guard. *)
Fixpoint fitEllipsis (fuel : nat) (truncatedLine : string) : option string :=
  match fuel with
  | O => None
  | S fuel' =>
      if tooWide truncatedLine
      then fitEllipsis fuel' (JS.dropLast truncatedLine)
      else Some truncatedLine
  end.


(** The line with its ellipsis is within the budget. *)
Definition fits (line : string) : Prop :=
  (measureText (line ++ "...") <= maxWidth)%Q.

End Fit.

(** ** The canvas and the drawing monad *)

(** [createRadialGradient(x0, y0, r0, x1, y1, r1)] with its colour stops. *)
Record RadialGradient : Type := mkGradient {
  gx0 : Z; gy0 : Z; gr0 : Z;
  gx1 : Z; gy1 : Z; gr1 : Z;
  colorStops : list (Q * string)
}.

(** The calls and property assignments made on the 2D context. *)
Inductive CanvasOp : Type :=
| SetFillStyle (style : string)
| SetFillGradient (gradient : RadialGradient)
| SetStrokeStyle (style : string)
| SetLineWidth (w : Z)
| SetFont (font : string)
| SetTextAlign (align : string)
| FillRect (x y w h : Z)
| FillText (text : string) (x y : Z)
| BeginPath
| MoveTo (x y : Z)
| LineTo (x y : Z)
| QuadraticCurveTo (cpx cpy x y : Z)
| ClosePath
| Fill
| Stroke
| ArcFull (x y radius : Z) (* arc(x, y, radius, 0, Math.PI * 2) *).

(** The context: the font in force and the calls made so far, oldest first. *)
Record Canvas : Type := mkCanvas {
  font : string;
  ops : list CanvasOp
}.

(** [createCanvas(width, height).getContext("2d")]: nothing drawn yet, the
    default font of a 2D context. *)
Definition createCanvas : Canvas := mkCanvas "10px sans-serif" [].

(** A drawing computation: it may run out of fuel, and otherwise returns a
    value and the updated context. *)
Definition Draw (A : Type) : Type := Canvas -> option (A * Canvas).

Definition ret {A : Type} (a : A) : Draw A := fun c => Some (a, c).

Definition bind {A B : Type} (m : Draw A) (k : A -> Draw B) : Draw B :=
  fun c => match m c with
           | Some (a, c') => k a c'
           | None => None
           end.

Declare Scope draw_scope.
Delimit Scope draw_scope with draw.
Notation "x <- m ;; k" := (bind m (fun x => k))
  (at level 61, m at next level, right associativity) : draw_scope.
Notation "m ;; k" := (bind m (fun _ => k))
  (at level 61, right associativity) : draw_scope.

Definition emit (op : CanvasOp) : Draw unit :=
  fun c => Some (tt, mkCanvas (font c) (ops c ++ [op])%list).

Definition setFont (f : string) : Draw unit :=
  fun c => Some (tt, mkCanvas f (ops c ++ [SetFont f])%list).

(** A computation that does not touch the context but reads its font. *)
Definition withFont {A : Type} (f : string -> A) : Draw A :=
  fun c => Some (f (font c), c).

(** A computation that may run out of fuel and does not touch the context. *)
Definition orDiverge {A : Type} (f : string -> option A) : Draw A :=
  fun c => match f (font c) with
           | Some a => Some (a, c)
           | None => None
           end.

(** The context after further calls. *)
Definition drawn (c : Canvas) (calls : list CanvasOp) : Canvas :=
  mkCanvas (font c) (ops c ++ calls)%list.

(** The calls that draw lines as they are, one line height apart. *)
Fixpoint plainTextOps (y : Z) (ls : list string) : list CanvasOp :=
  match ls with
  | [] => []
  | line :: rest =>
      FillText line (120 + textBoxPadding) y :: plainTextOps (y + lineHeight) rest
  end.

(** A computation that always returns and only adds calls to the log. *)
Definition runs {A : Type} (m : Draw A) : Prop :=
  forall c, exists a c' calls, m c = Some (a, c') /\ ops c' = (ops c ++ calls)%list.

(** A computation whose answer more fuel does not change. *)
Definition fuelMono {A : Type} (m : nat -> Draw A) : Prop :=
  forall fuel fuel' c r,
    (fuel <= fuel')%nat -> m fuel c = Some r -> m fuel' c = Some r.

(** ** The input records *)

Record Author : Type := mkAuthor {
  username : string;
  display_name : option string
}.

Record Cast : Type := mkCast {
  text : string;
  hash : string;
  author : Author;
  created_at : string
}.

(** ** [generateImageForCast] *)

Section Render.

(** The measurement backend: [ctx.measureText(s).width] under [ctx.font]. *)
Variable measure : string -> string -> Q.

Local Open Scope draw_scope.

Definition measureTextM (s : string) : Draw Q :=
  withFont (fun f => measure f s).

(** Lines 190-206: background, token name header, divider. *)
Definition drawHeader (tokenName : string) : Draw unit :=
  emit (SetFillStyle "#121a2e") ;;
  emit (FillRect 0 0 width height) ;;
  emit (SetFillStyle "#F8FAFC") ;;
  setFont "bold 72px sans-serif" ;;
  emit (SetTextAlign "center") ;;
  emit (FillText tokenName (width / 2) 120) ;;
  emit (SetStrokeStyle "#334155") ;;
  emit (SetLineWidth 2) ;;
  emit BeginPath ;;
  emit (MoveTo 100 160) ;;
  emit (LineTo (width - 100) 160) ;;
  emit Stroke.

(** Lines 208-224: user name, and display name when there is one. *)
Definition drawAuthor (a : Author) : Draw unit :=
  emit (SetFillStyle "#94A3B8") ;;
  setFont "36px sans-serif" ;;
  emit (SetTextAlign "left") ;;
  emit (FillText ("@" ++ username a) 120 220) ;;
  match display_name a with
  | Some displayName =>
      if JS.truthy displayName then
        emit (SetFillStyle "#F8FAFC") ;;
        setFont "bold 44px sans-serif" ;;
        w <- measureTextM displayName ;;
        (if JS.gt w (inject_Z (width - 240))
         then setFont "bold 36px sans-serif"
         else ret tt) ;;
        emit (FillText displayName 120 280)
      else ret tt
  | None => ret tt
  end.

(** Line 228. *)
Definition castTextOf (castInfo : Cast) : string :=
  if JS.truthy (text castInfo) then text castInfo else "No cast text available".

(** Line 235. *)
Definition maxWidth : Z := width - 280.

(** Lines 236-276 under the context's font. *)
Definition wrapM (castText : string) : Draw (list string) :=
  withFont (fun f => wrapText (measure f) (inject_Z maxWidth) castText).

(** Lines 293-329: the rounded rectangle and its border. *)
Definition drawTextBox (boxHeight : Z) : Draw unit :=
  emit (SetFillStyle "rgba(30, 41, 59, 0.7)") ;;
  emit BeginPath ;;
  emit (MoveTo (120 + cornerRadius) textBoxY) ;;
  emit (LineTo (width - 120 - cornerRadius) textBoxY) ;;
  emit (QuadraticCurveTo (width - 120) textBoxY
                         (width - 120) (textBoxY + cornerRadius)) ;;
  emit (LineTo (width - 120) (textBoxY + boxHeight - cornerRadius)) ;;
  emit (QuadraticCurveTo (width - 120) (textBoxY + boxHeight)
                         (width - 120 - cornerRadius) (textBoxY + boxHeight)) ;;
  emit (LineTo (120 + cornerRadius) (textBoxY + boxHeight)) ;;
  emit (QuadraticCurveTo 120 (textBoxY + boxHeight)
                         120 (textBoxY + boxHeight - cornerRadius)) ;;
  emit (LineTo 120 (textBoxY + cornerRadius)) ;;
  emit (QuadraticCurveTo 120 textBoxY (120 + cornerRadius) textBoxY) ;;
  emit ClosePath ;;
  emit Fill ;;
  emit (SetStrokeStyle "#475569") ;;
  emit (SetLineWidth 2) ;;
  emit Stroke.

(** Lines 347-351: fit the ellipsis, then draw the line. *)
Definition drawEllipsisLine (fuel : nat) (line : string) (y : Z) : Draw unit :=
  truncatedLine <-
    orDiverge (fun f => fitEllipsis (measure f) (inject_Z maxWidth) fuel line) ;;
  emit (FillText (truncatedLine ++ "...") (120 + textBoxPadding) y).

(** Lines 343-356: the loop over [visibleLines], from index [i] and
    ordinate [y] on; [lineCount] is [lines.length]. *)
Fixpoint drawLinesFrom (fuel lineCount : nat) (i y : Z) (visible : list string)
  : Draw unit :=
  match visible with
  | [] => ret tt
  | line :: rest =>
      (if ((i =? maxVisibleLines lineCount - 1)
           && (Z.of_nat lineCount >? maxVisibleLines lineCount))%bool
       then drawEllipsisLine fuel line y
       else emit (FillText line (120 + textBoxPadding) y)) ;;
      drawLinesFrom fuel lineCount (i + 1) (y + lineHeight) rest
  end.

(** Lines 331-356. *)
Definition drawLines (fuel : nat) (wrapped : list string) : Draw unit :=
  emit (SetFillStyle "#F8FAFC") ;;
  emit (SetTextAlign "left") ;;
  drawLinesFrom fuel (length wrapped) 0
    (textBoxY + textBoxPadding + lineHeight / 2) (visibleLines wrapped).

(** Lines 358-393: the token circle and its symbol. *)
Definition drawToken (tokenName : string) (boxHeight : Z) : Draw unit :=
  let tokenY := textBoxY + boxHeight + 100 in
  emit BeginPath ;;
  emit (ArcFull (width / 2) tokenY 150) ;;
  emit (SetFillGradient
          (mkGradient (width / 2) tokenY 20 (width / 2) tokenY 150
             [(0 # 1, "#10B981"); (1 # 2, "#3B82F6"); (1 # 1, "#8B5CF6")]%Q)) ;;
  emit Fill ;;
  emit (SetStrokeStyle "#FFFFFF") ;;
  emit (SetLineWidth 5) ;;
  emit Stroke ;;
  emit (SetFillStyle "#FFFFFF") ;;
  setFont "bold 120px sans-serif" ;;
  emit (SetTextAlign "center") ;;
  emit (FillText (JS.toUpperCase (JS.substring01 tokenName)) (width / 2) (tokenY + 40)).

(** The bullet of the footer, U+2022, as its UTF-8 bytes. *)
Definition bullet : string :=
  String (ascii_of_nat 226) (String (ascii_of_nat 128) (String (ascii_of_nat 162) "")).

(** Lines 395-403; [now] is [new Date().toISOString()], the reading of
    the clock at the moment of the call. *)
Definition footerText (now : string) : string :=
  "Generated by Farcaster Trending Bot " ++ bullet ++ " " ++ now.

Definition drawFooter (now : string) : Draw unit :=
  emit (SetFillStyle "#94A3B8") ;;
  setFont "20px sans-serif" ;;
  emit (SetTextAlign "center") ;;
  emit (FillText (footerText now) (width / 2) (height - 40)).

(** The calls of the footer. *)
Definition footerOps (now : string) : list CanvasOp :=
  [SetFillStyle "#94A3B8"; SetFont "20px sans-serif"; SetTextAlign "center";
   FillText (footerText now) (width / 2) (height - 40)].

(** Lines 226-356: the cast text section. It returns the box height. *)
Definition drawCastText (fuel : nat) (castInfo : Cast) : Draw Z :=
  let castText := castTextOf castInfo in
  setFont "36px sans-serif" ;;
  emit (SetFillStyle "#F8FAFC") ;;
  wrapped <- wrapM castText ;;
  let boxHeight := textBoxHeight (length wrapped) in
  drawTextBox boxHeight ;;
  drawLines fuel wrapped ;;
  ret boxHeight.

(** Everything up to the footer. *)
Definition drawCard (fuel : nat) (castInfo : Cast) (tokenName : string) : Draw unit :=
  drawHeader tokenName ;;
  drawAuthor (author castInfo) ;;
  boxHeight <- drawCastText fuel castInfo ;;
  drawToken tokenName boxHeight.

(** The calls [generateImageForCast] makes on a fresh canvas before it
    encodes it. *)
Definition renderCanvas (fuel : nat) (now : string) (castInfo : Cast)
    (tokenName : string) : option (list CanvasOp) :=
  match (drawCard fuel castInfo tokenName ;; drawFooter now) createCanvas with
  | Some (_, c) => Some (ops c)
  | None => None
  end.

(** [canvas.toBuffer("image/png")]: the encoder of the canvas library, a
    function of what was drawn. *)
Variable toBuffer : list CanvasOp -> list Byte.byte.

Definition generateImageForCast (fuel : nat) (now : string) (castInfo : Cast)
    (tokenName : string) : option (list Byte.byte) :=
  option_map toBuffer (renderCanvas fuel now castInfo tokenName).

(** The wrapped lines of a cast as the renderer computes them: the font
    of line 231 and the width of line 235. *)
Definition castLines (castInfo : Cast) : list string :=
  wrapText (measure "36px sans-serif") (inject_Z maxWidth) (castTextOf castInfo).

End Render.

(** A measurement backend for the examples: every code unit advances by
    [advance] pixels, whatever the font. *)
Definition fixedPitch (advance : Z) (f s : string) : Q :=
  inject_Z (advance * Z.of_nat (String.length s)).

(** ** Sample inputs *)

(** A text with a word of 70 code units, and a text of
    two words of 30 code units of which the second carries a forced
    break. *)
Definition longWordText : string :=
  "see pneumonoultramicroscopicsilicovolcanoconiosis-pneumonoultramicroscopic now".

Definition brokenText : string :=
  "aaaaaaaaaaaaaaaaaaaaaaaaaaaaaa bbbbbbbbbbbbbbbbbbbbbbbbbbbbbb" ++ NL ++ "cc".

(** Three hundred code units, no forced break: ten words of 26 letters and
    one of 30. *)
Definition text300 : string :=
  "aaaaaaaaaaaaaaaaaaaaaaaaaa bbbbbbbbbbbbbbbbbbbbbbbbbb cccccccccccccccccccccccccc dddddddddddddddddddddddddd eeeeeeeeeeeeeeeeeeeeeeeeee ffffffffffffffffffffffffff gggggggggggggggggggggggggg hhhhhhhhhhhhhhhhhhhhhhhhhh iiiiiiiiiiiiiiiiiiiiiiiiii jjjjjjjjjjjjjjjjjjjjjjjjjj kkkkkkkkkkkkkkkkkkkkkkkkkkkkkk".

Definition alice : Author := mkAuthor "alice" (Some "Alice").

Definition cast300 : Cast := mkCast text300 "0xabc" alice "2025-01-01T00:00:00Z".

Definition shortCast : Cast :=
  mkCast "gm frens" "0xdef" alice "2025-01-01T00:00:00Z".

Definition emptyCast : Cast := mkCast "" "0x000" alice "2025-01-01T00:00:00Z".

(** ** Regular expressions of [selectBestCastWithLLM] (lines 140-153)

    The three expressions of the parser are sequences of single-character
    atoms, each taken once, zero or more times, or one or more times, the
    repetitions greedy with backtracking; each has one capture group, which
    encloses its last atom. The matcher below returns the text matched by
    each atom. *)

Module Regex.

Inductive Quantifier : Type := Once | ZeroOrMore | OneOrMore.

Record Atom : Type := mkAtom {
  accepts : ascii -> bool;
  quantifier : Quantifier
}.

(** A greedy repetition followed by the continuation [k]: the longest run
    is tried first, then shorter ones. *)
Fixpoint greedy (ok : ascii -> bool) (k : string -> option (list string))
         (s : string) : option (string * list string) :=
  match s with
  | EmptyString => option_map (pair "") (k "")
  | String c rest =>
      if ok c then
        match greedy ok k rest with
        | Some (m, ms) => Some (String c m, ms)
        | None => option_map (pair "") (k s)
        end
      else option_map (pair "") (k s)
  end.

(** Match the atoms at the start of [s]. *)
Fixpoint matchAtoms (atoms : list Atom) (s : string) : option (list string) :=
  match atoms with
  | [] => Some []
  | a :: rest =>
      match quantifier a with
      | Once =>
          match s with
          | String c s' =>
              if accepts a c
              then option_map (cons (String c "")) (matchAtoms rest s')
              else None
          | EmptyString => None
          end
      | ZeroOrMore =>
          option_map (fun r => fst r :: snd r)
                     (greedy (accepts a) (matchAtoms rest) s)
      | OneOrMore =>
          match s with
          | String c s' =>
              if accepts a c
              then option_map (fun r => String c (fst r) :: snd r)
                              (greedy (accepts a) (matchAtoms rest) s')
              else None
          | EmptyString => None
          end
      end
  end.

(** [s.match(re)] for an expression without the [g] flag: the match at the
    leftmost position where there is one. *)
Fixpoint search (atoms : list Atom) (s : string) : option (list string) :=
  match matchAtoms atoms s with
  | Some r => Some r
  | None =>
      match s with
      | String _ s' => search atoms s'
      | EmptyString => None
      end
  end.

(** A literal character under the [i] flag. *)
Definition sameLetter (ch c : ascii) : bool :=
  Ascii.eqb (JS.upperAscii c) (JS.upperAscii ch).

Fixpoint literal (s : string) : list Atom :=
  match s with
  | EmptyString => []
  | String ch rest => mkAtom (sameLetter ch) Once :: literal rest
  end.

(** [\d] and [\w]. *)
Definition isDigit (c : ascii) : bool :=
  let n := nat_of_ascii c in ((48 <=? n) && (n <=? 57))%nat%bool.

Definition isWord (c : ascii) : bool :=
  let n := nat_of_ascii c in
  (isDigit c
   || ((65 <=? n) && (n <=? 90))%nat
   || ((97 <=? n) && (n <=? 122))%nat
   || (n =? 95)%nat)%bool.

Definition COLON : ascii := ":"%char.
Definition DOT : ascii := "."%char.

(** [/Cast (\d+)/i]; the group is the atom of index 5. *)
Definition castPattern : list Atom :=
  (literal "Cast " ++ [mkAtom isDigit OneOrMore])%list.

(** [/<label>[^:]*:[^\w]*([^\n.]+)/i]; the group is the last atom. *)
Definition fieldPattern (label : string) : list Atom :=
  (literal label
   ++ [mkAtom (fun c => negb (Ascii.eqb c COLON)) ZeroOrMore;
       mkAtom (fun c => Ascii.eqb c COLON) Once;
       mkAtom (fun c => negb (isWord c)) ZeroOrMore;
       mkAtom (fun c => negb (Ascii.eqb c LF || Ascii.eqb c DOT)) OneOrMore])%list.

(** The text of the capture group, the last atom, of a match. *)
Definition group1 (r : list string) : string := last r "".

End Regex.

(** ** Choosing the cast (lines 100-176) *)

Module Select.

(** White space of [trim] among the code units below 256. *)
Definition isSpace (c : ascii) : bool :=
  let n := nat_of_ascii c in
  (((9 <=? n) && (n <=? 13)) || (n =? 32) || (n =? 160))%nat%bool.

Fixpoint trimStart (s : string) : string :=
  match s with
  | EmptyString => EmptyString
  | String c rest => if isSpace c then trimStart rest else s
  end.

Fixpoint trimEnd (s : string) : string :=
  match s with
  | EmptyString => EmptyString
  | String c rest =>
      match trimEnd rest with
      | EmptyString => if isSpace c then EmptyString else String c EmptyString
      | String _ _ as kept => String c kept
      end
  end.

Definition trim (s : string) : string := trimEnd (trimStart s).

(** The decimal writing of a number, as a template literal prints it. *)
Definition decimal (n : nat) : string :=
  DecimalString.NilEmpty.string_of_uint (Nat.to_uint n).

(** [Number.parseInt(s, 10)] on a string of decimal digits (the only
    strings it is applied to). The value is exact here; the source rounds
    it to a double, which changes nothing below 2^53. *)
Definition parseInt (s : string) : Z :=
  match DecimalString.NilEmpty.uint_of_string s with
  | Some d => Z.of_nat (Nat.of_uint d)
  | None => 0
  end.

(** Lines 104-106: the casts listed in the prompt, numbered from 1. *)
Fixpoint castTextsFrom (index : nat) (casts : list Cast) : list string :=
  match casts with
  | [] => []
  | cast :: rest =>
      ("Cast " ++ decimal (index + 1) ++ ": " ++ text cast)
        :: castTextsFrom (S index) rest
  end.

Definition castTexts (casts : list Cast) : list string :=
  castTextsFrom 0 (JS.slice0 casts 10).

(** [llmResponse?.match(re)]: no match when the response is null. *)
Definition matchResponse (atoms : list Regex.Atom) (llmResponse : option string)
  : option (list string) :=
  match llmResponse with
  | Some response => Regex.search atoms response
  | None => None
  end.

(** Lines 141-144. *)
Definition castNumber (llmResponse : option string) : Z :=
  match matchResponse Regex.castPattern llmResponse with
  | Some m => parseInt (Regex.group1 m) - 1
  | None => 0
  end.

(** Lines 146-149. *)
Definition tokenName (llmResponse : option string) : string :=
  match matchResponse (Regex.fieldPattern "suggested name") llmResponse with
  | Some m => trim (Regex.group1 m)
  | None => "TrendToken"
  end.

(** Lines 151-154. *)
Definition imageDescription (llmResponse : option string) : string :=
  match matchResponse (Regex.fieldPattern "image") llmResponse with
  | Some m => trim (Regex.group1 m)
  | None => "A trendy crypto token visualization"
  end.

(** Line 157: [casts[castNumber]], undefined outside the array. *)
Definition selectedCast (casts : list Cast) (llmResponse : option string)
  : option Cast :=
  if castNumber llmResponse <? 0 then None
  else nth_error casts (Z.to_nat (castNumber llmResponse)).

(** Lines 163-168: what the function returns, given the answer of the
    model. *)
Record LLMResult : Type := mkLLMResult {
  cast : option Cast;
  llmResponse : string;
  resultTokenName : string;
  resultImageDescription : string
}.

Definition parseResponse (casts : list Cast) (response : option string)
  : LLMResult :=
  mkLLMResult (selectedCast casts response)
              (match response with
               | Some r => if JS.truthy r then r else ""
               | None => ""
               end)
              (tokenName response)
              (imageDescription response).

(** Lines 645 and 651: the symbol of the deployed token,
    [tokenName.substring(0, 4).toUpperCase()]. *)
Fixpoint substring0 (n : nat) (s : string) : string :=
  match n, s with
  | S n', String c rest => String c (substring0 n' rest)
  | _, _ => EmptyString
  end.

Definition tokenSymbol (name : string) : string :=
  JS.toUpperCase (substring0 4 name).

End Select.

(** ** Notions used to state properties of the parser *)

(** Every code unit of [s] is accepted by [ok]. *)
Fixpoint everyChar (ok : ascii -> bool) (s : string) : bool :=
  match s with
  | EmptyString => true
  | String c rest => ok c && everyChar ok rest
  end.

(** [s] starts with a code unit accepted by [ok]. *)
Definition headIs (ok : ascii -> bool) (s : string) : bool :=
  match s with
  | EmptyString => false
  | String c _ => ok c
  end.

(** The one-character strings of the code units of [s]. *)
Fixpoint letters (s : string) : list string :=
  match s with
  | EmptyString => []
  | String c rest => String c "" :: letters rest
  end.

(** Neither a line break nor a full stop. *)
Definition plainChar (c : ascii) : bool :=
  negb (Ascii.eqb c LF || Ascii.eqb c Regex.DOT).

(** A code unit of ASCII. *)
Definition isAscii (c : ascii) : bool := (nat_of_ascii c <? 128)%nat.

(** ** Notions used to state properties of the drawing *)

(** The calls a drawing computation makes on a fresh canvas. *)
Definition callsOf {A : Type} (m : Draw A) : list CanvasOp :=
  match m createCanvas with
  | Some (_, c) => ops c
  | None => []
  end.

(** A computation that returns, adds the calls [l] to the log and maps the
    font in force by [f], whatever the canvas. *)
Definition appends (m : Draw unit) (f : string -> string) (l : list CanvasOp)
  : Prop :=
  forall c, m c = Some (tt, mkCanvas (f (font c)) (ops c ++ l)%list).





(** The font in force after the author block (lines 208-224). *)
Definition authorFont (measure : string -> string -> Q) (a : Author) : string :=
  match display_name a with
  | Some name =>
      if JS.truthy name then
        if JS.gt (measure "bold 44px sans-serif" name) (inject_Z (width - 240))
        then "bold 36px sans-serif"
        else "bold 44px sans-serif"
      else "36px sans-serif"
  | None => "36px sans-serif"
  end.


(** The anchor points, path vertices and shapes of a call lie on the
    canvas. *)
Definition onCanvas (x y : Z) : Prop := 0 <= x <= width /\ 0 <= y <= height.

Definition inCanvas (op : CanvasOp) : Prop :=
  match op with
  | FillRect x y w h => onCanvas x y /\ onCanvas (x + w) (y + h)
  | FillText _ x y => onCanvas x y
  | MoveTo x y => onCanvas x y
  | LineTo x y => onCanvas x y
  | QuadraticCurveTo cpx cpy x y => onCanvas cpx cpy /\ onCanvas x y
  | ArcFull x y radius =>
      0 <= radius /\ onCanvas (x - radius) (y - radius)
      /\ onCanvas (x + radius) (y + radius)
  | _ => True
  end.


(** ** Notions used to state properties of the wrap loop *)

(** The non-empty words of a list of lines, in reading order. *)
Definition nonEmptyWords (ls : list string) : list string :=
  filter JS.truthy (flat_map (JS.split SPACE) ls).

(** The non-empty pieces of a text cut at its spaces and at its line
    breaks, in reading order. *)
Definition textPieces (castText : string) : list string :=
  filter JS.truthy (flat_map (JS.split LF) (JS.split SPACE castText)).

(** Each line was closed only because the first word of the next one did
    not fit after it. *)
Fixpoint tightLines (measureText : string -> Q) (maxWidth : Q)
         (ls : list string) : Prop :=
  match ls with
  | line :: (next :: _) as rest =>
      JS.gt (measureText (line ++ " " ++ hd "" (JS.split SPACE next))) maxWidth = true
      /\ tightLines measureText maxWidth rest
  | _ => True
  end.

(** * Properties *)

(** ** Strings *)

Lemma truthy_false_iff (s : string) : JS.truthy s = false <-> s = "".
Proof. destruct s; simpl; split; intro H; congruence. Qed.

Lemma truthy_true_iff (s : string) : JS.truthy s = true <-> s <> "".
Proof. destruct s; simpl; split; intro H; congruence. Qed.

Lemma append_empty_r (s : string) : s ++ "" = s.
Proof. induction s as [|a s IH]; simpl; [reflexivity | now rewrite IH]. Qed.

Lemma append_assoc (s t u : string) : (s ++ t) ++ u = s ++ t ++ u.
Proof. induction s as [|a s IH]; simpl; [reflexivity | now rewrite IH]. Qed.

Lemma append_inj_l (p s t : string) : p ++ s = p ++ t -> s = t.
Proof.
  induction p as [|a p IH]; simpl; intro H; [exact H |].
  injection H as H. auto.
Qed.

Lemma dropLast_length (s : string) :
  String.length (JS.dropLast s) = Nat.pred (String.length s).
Proof.
  induction s as [|a s IH]; [reflexivity |].
  destruct s as [|b s]; [reflexivity |].
  change (JS.dropLast (String a (String b s)))
    with (String a (JS.dropLast (String b s))).
  simpl String.length in *. rewrite IH. reflexivity.
Qed.

Lemma dropLast_append (p rest : string) :
  rest <> "" -> JS.dropLast (p ++ rest) = p ++ JS.dropLast rest.
Proof.
  intro Hne. induction p as [|a p IH]; [reflexivity |].
  simpl append.
  destruct (p ++ rest) as [|b q] eqn:E.
  - destruct p; simpl in E; [congruence | discriminate].
  - change (JS.dropLast (String a (String b q)))
      with (String a (JS.dropLast (String b q))).
    now rewrite IH.
Qed.

Lemma isPrefix_refl (s : string) : isPrefix s s.
Proof. exists "". now rewrite append_empty_r. Qed.

Lemma isPrefix_empty (s : string) : isPrefix "" s.
Proof. now exists s. Qed.

Lemma isPrefix_trans (p q s : string) : isPrefix p q -> isPrefix q s -> isPrefix p s.
Proof.
  intros [u ->] [v ->]. exists (u ++ v). apply append_assoc.
Qed.

Lemma isPrefix_of_empty (p : string) : isPrefix p "" -> p = "".
Proof. intros [rest H]. destruct p; [reflexivity | discriminate]. Qed.

Lemma isPrefix_length (p s : string) :
  isPrefix p s -> (String.length p <= String.length s)%nat.
Proof.
  intros [rest ->]. induction p as [|a p IH]; simpl; lia.
Qed.

Lemma dropLast_isPrefix (s : string) : isPrefix (JS.dropLast s) s.
Proof.
  induction s as [|a s IH]; [apply isPrefix_refl |].
  destruct s as [|b s]; [apply isPrefix_empty |].
  change (JS.dropLast (String a (String b s)))
    with (String a (JS.dropLast (String b s))).
  destruct IH as [rest E]. exists rest. cbn [append]. f_equal. exact E.
Qed.

(** A proper initial segment survives the removal of the last code unit. *)
Lemma isPrefix_dropLast (p s : string) :
  isPrefix p s -> p <> s -> isPrefix p (JS.dropLast s).
Proof.
  intros [rest ->] Hne.
  assert (rest <> "") as Hrest.
  { intros ->. apply Hne. now rewrite append_empty_r. }
  rewrite dropLast_append by assumption.
  now exists (JS.dropLast rest).
Qed.

(** ** Widths *)

Lemma gt_false_iff (x y : Q) : JS.gt x y = false <-> (x <= y)%Q.
Proof.
  unfold JS.gt. rewrite negb_false_iff. apply Qle_bool_iff.
Qed.

Lemma gt_true_iff (x y : Q) : JS.gt x y = true <-> (y < x)%Q.
Proof.
  unfold JS.gt. rewrite negb_true_iff. split.
  - intro H. apply Qnot_le_lt. intro Hle.
    apply Qle_bool_iff in Hle. congruence.
  - intro H. destruct (Qle_bool x y) eqn:E; [| reflexivity].
    apply Qle_bool_iff in E. exfalso. exact (Qlt_not_le _ _ H E).
Qed.

(** ** The ellipsis-fitting loop *)

Section FitFacts.

Variable measureText : string -> Q.
Variable maxWidth : Q.

Local Abbreviation fit := (fitEllipsis measureText maxWidth).
Local Abbreviation wide := (tooWide measureText maxWidth).
Local Abbreviation ok := (fits measureText maxWidth).

Lemma tooWide_false_iff (line : string) : wide line = false <-> ok line.
Proof. apply gt_false_iff. Qed.

Lemma fit_unfold (fuel : nat) (line : string) :
  fit (S fuel) line = if wide line then fit fuel (JS.dropLast line) else Some line.
Proof. reflexivity. Qed.

(** What the loop returns is an initial segment that fits. *)
Lemma fit_sound (fuel : nat) :
  forall line r, fit fuel line = Some r -> isPrefix r line /\ ok r.
Proof.
  induction fuel as [|fuel IH]; intros line r H; [discriminate |].
  rewrite fit_unfold in H. destruct (wide line) eqn:W.
  - destruct (IH _ _ H) as [Hp Hf]. split; [| exact Hf].
    eapply isPrefix_trans; [exact Hp | apply dropLast_isPrefix].
  - injection H as <-. split; [apply isPrefix_refl |].
    now apply tooWide_false_iff.
Qed.

(** More fuel does not change an answer. *)
Lemma fit_mono (fuel : nat) :
  forall fuel' line r, (fuel <= fuel')%nat -> fit fuel line = Some r ->
                       fit fuel' line = Some r.
Proof.
  induction fuel as [|fuel IH]; intros fuel' line r Hle H; [discriminate |].
  destruct fuel' as [|fuel']; [lia |].
  rewrite fit_unfold in *. destruct (wide line).
  - apply IH; [lia | exact H].
  - exact H.
Qed.

(** It is the longest initial segment that fits. *)
Lemma fit_longest (fuel : nat) :
  forall line r, fit fuel line = Some r ->
                 forall q, isPrefix q line -> ok q -> isPrefix q r.
Proof.
  induction fuel as [|fuel IH]; intros line r H q Hq Hfq; [discriminate |].
  rewrite fit_unfold in H. destruct (wide line) eqn:W.
  - apply (IH _ _ H); [| exact Hfq].
    apply isPrefix_dropLast; [exact Hq |].
    intros ->. apply tooWide_false_iff in Hfq. congruence.
  - injection H as <-. exact Hq.
Qed.

(** When some initial segment fits, one test per code unit and one more
    are enough. *)
Lemma fit_complete (n : nat) :
  forall line, (String.length line <= n)%nat ->
               (exists p, isPrefix p line /\ ok p) ->
               exists r, fit (S n) line = Some r.
Proof.
  induction n as [|n IH]; intros line Hlen [p [Hp Hf]];
    rewrite fit_unfold; destruct (wide line) eqn:W;
    try (now exists line).
  - destruct line; [| simpl in Hlen; lia].
    apply isPrefix_of_empty in Hp. subst p.
    apply tooWide_false_iff in Hf. congruence.
  - apply IH.
    + rewrite dropLast_length. lia.
    + exists p. split; [| exact Hf].
      apply isPrefix_dropLast; [exact Hp |].
      intros ->. apply tooWide_false_iff in Hf. congruence.
Qed.

(** When no initial segment fits, the loop never ends. *)
Lemma fit_diverges (line : string) :
  (forall p, isPrefix p line -> wide p = true) ->
  forall fuel, fit fuel line = None.
Proof.
  intros Hall fuel. destruct (fit fuel line) as [r|] eqn:E; [| reflexivity].
  destruct (fit_sound _ _ _ E) as [Hp Hf].
  apply tooWide_false_iff in Hf. rewrite (Hall _ Hp) in Hf. discriminate.
Qed.

End FitFacts.

(** C1, as the code has it. The ellipsis-fitting loop terminates exactly
    when some initial segment of the line (the empty one included),
    followed by "...", measures at most [maxWidth]. It then stops within
    one test per code unit of the line plus one, at the longest such
    segment. When no initial segment fits, it never ends. *)
Theorem fitEllipsis_terminates_iff :
  forall (measureText : string -> Q) (maxWidth : Q) (line : string),
    ((exists fuel r, fitEllipsis measureText maxWidth fuel line = Some r) <->
     (exists p, isPrefix p line /\ fits measureText maxWidth p))
    /\
    (forall fuel r,
        fitEllipsis measureText maxWidth fuel line = Some r ->
        fitEllipsis measureText maxWidth (S (String.length line)) line = Some r
        /\ isPrefix r line
        /\ fits measureText maxWidth r
        /\ forall q, isPrefix q line -> fits measureText maxWidth q -> isPrefix q r)
    /\
    ((forall p, isPrefix p line -> ~ fits measureText maxWidth p) ->
     forall fuel, fitEllipsis measureText maxWidth fuel line = None).
Proof.
  intros mt mw line. split; [split | split].
  - intros [fuel [r H]]. exists r. eapply fit_sound; eassumption.
  - intro H. destruct (fit_complete mt mw _ line (le_n _) H) as [r Hr].
    now exists (S (String.length line)), r.
  - intros fuel r H.
    destruct (fit_sound _ _ _ _ _ H) as [Hp Hf].
    assert (exists r', fitEllipsis mt mw (S (String.length line)) line = Some r')
      as [r' Hr'].
    { apply fit_complete; [lia | now exists r]. }
    assert (r' = r) as ->.
    { pose proof (fit_mono _ _ _ (Nat.max fuel (S (String.length line))) _ _
                    (Nat.le_max_l _ _) H) as H1.
      pose proof (fit_mono _ _ _ (Nat.max fuel (S (String.length line))) _ _
                    (Nat.le_max_r _ _) Hr') as H2.
      congruence. }
    repeat split; try assumption.
    eapply fit_longest; eassumption.
  - intros Hnone. apply fit_diverges. intros p Hp.
    destruct (tooWide mt mw p) eqn:W; [reflexivity |].
    apply tooWide_false_iff in W. now apply Hnone in W.
Qed.

(** C1, as the claim states it, fails: under a backend that advances 400
    pixels per code unit, "..." alone is wider than the 920 pixels of the
    renderer, and the loop started on "Hi" never ends. *)
Lemma fitEllipsis_may_diverge :
  JS.gt (fixedPitch 400 "36px sans-serif" ("" ++ "...")) (inject_Z 920) = true
  /\ forall fuel,
      fitEllipsis (fixedPitch 400 "36px sans-serif") (inject_Z 920) fuel "Hi" = None.
Proof.
  split; [reflexivity |].
  apply fit_diverges. intros p Hp.
  apply gt_true_iff. unfold fixedPitch.
  rewrite <- Zlt_Qlt.
  assert (3 <= Z.of_nat (String.length (p ++ "..."))); [| lia].
  clear Hp. induction p as [|a p IH]; simpl String.length in *; lia.
Qed.

(** ** Text-box geometry *)

Lemma maxVisibleLines_closed (lineCount : nat) :
  maxVisibleLines lineCount = Z.min (Z.of_nat lineCount) 7.
Proof.
  unfold maxVisibleLines, textBoxHeight, textHeight,
    textBoxPadding, maxTextBoxHeight, lineHeight.
  destruct (Z_le_gt_dec (Z.of_nat lineCount) 7) as [Hle | Hgt].
  - rewrite (Z.min_l (Z.of_nat lineCount) 7) by exact Hle.
    rewrite Z.min_l by lia.
    replace (Z.of_nat lineCount * 48 + 40 * 2 - 40 * 2)
      with (Z.of_nat lineCount * 48) by lia.
    apply Z.div_mul. lia.
  - rewrite (Z.min_r (Z.of_nat lineCount) 7) by lia.
    rewrite Z.min_r by lia. reflexivity.
Qed.

(** C4. For every line count the box height is
    [min (lineCount * lineHeight + 2 * padding) maxTextBoxHeight], the
    number of visible lines is the floor of
    [(boxHeight - 2 * padding) / lineHeight], with line height 48, padding
    40 and maximal height 460, and that number is never negative. *)
Theorem layout_plan :
  forall lineCount : nat,
    lineHeight = 48 /\ textBoxPadding = 40 /\ maxTextBoxHeight = 460
    /\ textBoxHeight lineCount
       = Z.min (Z.of_nat lineCount * lineHeight + 2 * textBoxPadding) maxTextBoxHeight
    /\ maxVisibleLines lineCount
       = (textBoxHeight lineCount - 2 * textBoxPadding) / lineHeight
    /\ 0 <= maxVisibleLines lineCount.
Proof.
  intro n.
  split; [reflexivity |]. split; [reflexivity |]. split; [reflexivity |].
  split; [| split].
  - unfold textBoxHeight, textHeight. f_equal; lia.
  - unfold maxVisibleLines. f_equal; lia.
  - rewrite maxVisibleLines_closed. lia.
Qed.

(** C10. Under the constants of the renderer the number of visible lines
    never exceeds 7, whatever the number of wrapped lines. *)
Theorem maxVisibleLines_le_7 :
  forall lineCount : nat, maxVisibleLines lineCount <= 7.
Proof.
  intro n. rewrite maxVisibleLines_closed. lia.
Qed.

Lemma visibleLines_firstn (wrapped : list string) :
  visibleLines wrapped = firstn 7 wrapped.
Proof.
  unfold visibleLines, JS.slice0. rewrite maxVisibleLines_closed.
  destruct (Z.min (Z.of_nat (length wrapped)) 7 <? 0) eqn:E.
  - apply Z.ltb_lt in E. lia.
  - destruct (Z_le_gt_dec (Z.of_nat (length wrapped)) 7) as [Hle | Hgt].
    + rewrite Z.min_l by exact Hle. rewrite Nat2Z.id.
      rewrite !firstn_all2 by lia. reflexivity.
    + rewrite Z.min_r by lia. reflexivity.
Qed.

Lemma visibleLines_length (wrapped : list string) :
  Z.of_nat (length (visibleLines wrapped)) = maxVisibleLines (length wrapped).
Proof.
  rewrite visibleLines_firstn, maxVisibleLines_closed, length_firstn. lia.
Qed.

Lemma truncated_true_iff (wrapped : list string) :
  truncated wrapped = true <->
  maxVisibleLines (length wrapped) < Z.of_nat (length wrapped).
Proof.
  unfold truncated. rewrite Z.gtb_ltb. apply Z.ltb_lt.
Qed.

Lemma truncated_false_iff (wrapped : list string) :
  truncated wrapped = false <->
  Z.of_nat (length wrapped) <= maxVisibleLines (length wrapped).
Proof.
  unfold truncated. rewrite Z.gtb_ltb. apply Z.ltb_ge.
Qed.

(** ** Splitting *)

Lemma split_not_nil (c : ascii) (s : string) : JS.split c s <> [].
Proof.
  destruct s as [|a s]; simpl; [discriminate |].
  destruct (Ascii.eqb a c); [discriminate |].
  destruct (JS.split c s); discriminate.
Qed.

Lemma split_cons (c a : ascii) (s : string) :
  JS.split c (String a s) =
  if Ascii.eqb a c then "" :: JS.split c s
  else String a (hd "" (JS.split c s)) :: tl (JS.split c s).
Proof.
  simpl. destruct (Ascii.eqb a c); [reflexivity |].
  pose proof (split_not_nil c s) as Hne.
  destruct (JS.split c s); [contradiction | reflexivity].
Qed.

(** Without a separator the string is its only piece. *)
Lemma split_no_separator (c : ascii) (s : string) :
  JS.includes c s = false -> JS.split c s = [s].
Proof.
  induction s as [|a s IH]; [reflexivity |].
  simpl JS.includes. rewrite split_cons.
  destruct (Ascii.eqb a c); [discriminate |].
  intro H. rewrite (IH H). reflexivity.
Qed.

(** With a separator there are at least two pieces. *)
Lemma split_with_separator (c : ascii) (s : string) :
  JS.includes c s = true -> (2 <= length (JS.split c s))%nat.
Proof.
  induction s as [|a s IH]; [discriminate |].
  simpl JS.includes. rewrite split_cons.
  pose proof (split_not_nil c s) as Hne.
  destruct (Ascii.eqb a c).
  - intros _. destruct (JS.split c s); [contradiction | simpl; lia].
  - intro H. specialize (IH H).
    destruct (JS.split c s); simpl in *; lia.
Qed.

(** A character absent from a string is absent from its pieces. *)
Lemma split_pieces_without (d c : ascii) (s : string) :
  JS.includes d s = false ->
  Forall (fun piece => JS.includes d piece = false) (JS.split c s).
Proof.
  induction s as [|a s IH]; intro H.
  - repeat constructor.
  - simpl in H. destruct (Ascii.eqb a d) eqn:Ead; [discriminate |].
    specialize (IH H). rewrite split_cons.
    pose proof (split_not_nil c s) as Hne.
    destruct (Ascii.eqb a c).
    + constructor; [reflexivity | exact IH].
    + destruct (JS.split c s) as [|piece pieces]; [contradiction |].
      inversion IH as [|? ? Hp Hps]; subst. simpl.
      constructor; [| exact Hps].
      simpl. now rewrite Ead.
Qed.

(** No piece contains the separator. *)
Lemma split_pieces_no_separator (c : ascii) (s : string) :
  Forall (fun piece => JS.includes c piece = false) (JS.split c s).
Proof.
  induction s as [|a s IH]; [repeat constructor |].
  rewrite split_cons. pose proof (split_not_nil c s) as Hne.
  destruct (Ascii.eqb a c) eqn:E.
  - constructor; [reflexivity | exact IH].
  - destruct (JS.split c s) as [|piece pieces]; [contradiction |].
    inversion IH as [|? ? Hp Hps]; subst. cbn [hd tl].
    constructor; [| exact Hps].
    cbn [JS.includes]. now rewrite E.
Qed.

(** A list of at least two elements has a first one, a last one and an
    interior. *)
Lemma two_ends {A : Type} (l : list A) :
  (2 <= length l)%nat -> exists x mid y, l = (x :: mid ++ [y])%list.
Proof.
  destruct l as [|x l]; [simpl; lia |].
  intro H. destruct (exists_last (l := l)) as [mid [y ->]].
  - destruct l; [simpl in H; lia | discriminate].
  - now exists x, mid, y.
Qed.

(** ** The wrap loop *)

Section WrapFacts.

Variable measureText : string -> Q.
Variable maxWidth : Q.

Local Abbreviation step := (wrapStep measureText maxWidth).
Local Abbreviation plain := (plainWord measureText maxWidth).
Local Abbreviation curOK := (curKind measureText maxWidth).

Lemma fold_push (ls : list string) (st : WrapState) :
  fold_left push ls st = mkWrap (lines st ++ ls)%list (currentLine st).
Proof.
  revert st. induction ls as [|l ls IH]; intro st; simpl.
  - rewrite app_nil_r. now destruct st.
  - rewrite IH. simpl. now rewrite <- app_assoc.
Qed.

Lemma interior_ends (x y : string) (mid : list string) :
  interior (x :: mid ++ [y])%list = mid.
Proof.
  unfold interior. simpl length. rewrite length_app. simpl.
  replace (length mid + 1 - 1)%nat with (length mid + 0)%nat by lia.
  rewrite firstn_app_2. simpl. apply app_nil_r.
Qed.

(** What a word with line breaks does to the state, in terms of its
    first piece, its interior pieces and its last piece. *)
Lemma breakWord_ends (st : WrapState) (word p0 pl : string) (mid : list string) :
  JS.split LF word = (p0 :: mid ++ [pl])%list ->
  breakWord st word =
  mkWrap
    (lines st
     ++ (if JS.truthy (currentLine st)
         then [(currentLine st ++ (if JS.truthy p0 then " " ++ p0 else ""))%string]
         else if JS.truthy p0 then [p0] else [])
     ++ mid)%list
    pl.
Proof.
  intro E. unfold breakWord. rewrite E.
  rewrite interior_ends.
  assert ((1 <? length (p0 :: mid ++ [pl]))%nat = true) as ->.
  { apply Nat.ltb_lt. simpl. rewrite length_app. simpl. lia. }
  replace (last (p0 :: mid ++ [pl]) "") with pl.
  2:{ change (p0 :: mid ++ [pl])%list with ((p0 :: mid) ++ [pl])%list.
      now rewrite last_last. }
  cbn [nth]. rewrite fold_push. unfold setCurrent. cbn [lines currentLine].
  f_equal.
  destruct (JS.truthy (currentLine st)); [| destruct (JS.truthy p0)];
    unfold push; cbn [lines currentLine];
    rewrite <- ?app_assoc; reflexivity.
Qed.

Lemma flush_length (st : WrapState) : length (flush st) = pending st.
Proof.
  unfold flush, pending. destruct (JS.truthy (currentLine st)).
  - rewrite length_app. reflexivity.
  - lia.
Qed.

Lemma truthy_append (s t : string) :
  JS.truthy (s ++ t) = (JS.truthy s || JS.truthy t)%bool.
Proof. destruct s; [reflexivity | reflexivity]. Qed.

(** A plain word adds at most one line and removes none. *)
Lemma plainWord_pending (st : WrapState) (word : string) :
  (pending st <= pending (plain st word) <= S (pending st))%nat
  /\ (JS.truthy word = true -> 1 <= pending (plain st word))%nat.
Proof.
  unfold plainWord, pending.
  destruct (JS.gt _ maxWidth && JS.truthy (currentLine st))%bool eqn:E.
  - apply andb_prop in E as [_ Hc].
    unfold setCurrent, push. cbn [lines currentLine].
    rewrite Hc, length_app. simpl length.
    destruct (JS.truthy word); split; try lia.
  - unfold setCurrent. cbn [lines currentLine].
    rewrite !truthy_append.
    destruct (JS.truthy (currentLine st)), (JS.truthy word);
      simpl; split; try lia.
Qed.

Lemma plainWords_pending (words : list string) :
  Forall (fun w => JS.includes LF w = false) words ->
  forall st,
    (pending st <= pending (fold_left step words st)
     <= length words + pending st)%nat
    /\ (Exists (fun w => JS.truthy w = true) words ->
        1 <= pending (fold_left step words st))%nat.
Proof.
  induction 1 as [|w ws Hw _ IH]; intro st.
  - simpl. split; [lia |]. intro H. inversion H.
  - cbn [fold_left]. unfold wrapStep at 2 4 6. rewrite Hw.
    destruct (plainWord_pending st w) as [Hb Hone].
    destruct (IH (plain st w)) as [Hb' Hex].
    split; [simpl length; lia |].
    intro H. inversion H as [? ? Ht | ? ? Hr]; subst.
    + specialize (Hone Ht). lia.
    + auto.
Qed.

Lemma plainWord_lineOK (words : list string) (st : WrapState) (word : string) :
  In word words ->
  Forall (lineOK measureText maxWidth words) (lines st) ->
  (currentLine st = "" \/ lineOK measureText maxWidth words (currentLine st)) ->
  Forall (lineOK measureText maxWidth words) (lines (plain st word))
  /\ (currentLine (plain st word) = "" \/ lineOK measureText maxWidth words (currentLine (plain st word))).
Proof.
  intros Hin Hls Hcur. unfold plainWord.
  destruct (JS.gt _ maxWidth) eqn:G; cbn [andb].
  - destruct (JS.truthy (currentLine st)) eqn:T.
    + unfold setCurrent, push. cbn [lines currentLine]. split.
      * apply Forall_app. split; [exact Hls |].
        constructor; [| constructor].
        destruct Hcur as [Hc | Hc]; [| exact Hc].
        apply truthy_true_iff in T. contradiction.
      * right. now right.
    + unfold setCurrent. cbn [lines currentLine]. split; [exact Hls |].
      apply truthy_false_iff in T. rewrite T. simpl. right. now right.
  - unfold setCurrent. cbn [lines currentLine]. split; [exact Hls |].
    right. left. now apply gt_false_iff.
Qed.

Lemma plainWords_lineOK (words ws : list string) :
  Forall (fun w => JS.includes LF w = false) ws ->
  incl ws words ->
  forall st,
    Forall (lineOK measureText maxWidth words) (lines st) ->
    (currentLine st = "" \/ lineOK measureText maxWidth words (currentLine st)) ->
    Forall (lineOK measureText maxWidth words) (flush (fold_left step ws st)).
Proof.
  induction 1 as [|w ws Hw _ IH]; intros Hincl st Hls Hcur.
  - simpl. unfold flush. destruct (JS.truthy (currentLine st)) eqn:T.
    + apply Forall_app. split; [exact Hls |].
      constructor; [| constructor].
      destruct Hcur as [Hc | Hc]; [| exact Hc].
      apply truthy_true_iff in T. contradiction.
    + exact Hls.
  - cbn [fold_left]. unfold wrapStep at 2. rewrite Hw.
    destruct (plainWord_lineOK words st w) as [Hls' Hcur']; auto.
    + apply Hincl. now left.
    + apply IH; auto. intros x Hx. apply Hincl. now right.
Qed.

Lemma curKind_lineKind (words : list string) (cur : string) :
  curOK cur -> lineKind measureText maxWidth words cur.
Proof. intros [H | H]; [left | right; left]; exact H. Qed.

Lemma plainWord_kind (words : list string) (st : WrapState) (word : string) :
  JS.includes SPACE word = false ->
  Forall (lineKind measureText maxWidth words) (lines st) ->
  curOK (currentLine st) ->
  Forall (lineKind measureText maxWidth words) (lines (plain st word))
  /\ curOK (currentLine (plain st word)).
Proof.
  intros Hw Hls Hcur. unfold plainWord.
  destruct (JS.gt _ maxWidth) eqn:G; cbn [andb].
  - destruct (JS.truthy (currentLine st)) eqn:T.
    + unfold setCurrent, push. cbn [lines currentLine]. split.
      * apply Forall_app. split; [exact Hls |].
        constructor; [| constructor]. now apply curKind_lineKind.
      * now right.
    + unfold setCurrent. cbn [lines currentLine]. split; [exact Hls |].
      apply truthy_false_iff in T. rewrite T. now right.
  - unfold setCurrent. cbn [lines currentLine]. split; [exact Hls |].
    left. now apply gt_false_iff.
Qed.

Lemma breakWord_kind (words : list string) (st : WrapState) (word : string) :
  In word words ->
  JS.includes SPACE word = false ->
  JS.includes LF word = true ->
  Forall (lineKind measureText maxWidth words) (lines st) ->
  curOK (currentLine st) ->
  Forall (lineKind measureText maxWidth words) (lines (breakWord st word))
  /\ curOK (currentLine (breakWord st word)).
Proof.
  intros Hin Hsp Hlf Hls Hcur.
  destruct (two_ends _ (split_with_separator _ _ Hlf)) as [p0 [mid [pl E]]].
  pose proof (split_pieces_without SPACE LF word Hsp) as Hparts.
  rewrite E in Hparts.
  inversion Hparts as [|? ? Hp0 Hrest]; subst.
  apply Forall_app in Hrest as [Hmid Hpl].
  inversion Hpl as [|? ? Hpl' _]; subst.
  rewrite (breakWord_ends st word p0 pl mid E). cbn [lines currentLine].
  split; [| now right].
  apply Forall_app. split; [exact Hls |].
  apply Forall_app. split.
  - destruct (JS.truthy (currentLine st)); [| destruct (JS.truthy p0) eqn:T0].
    + constructor; [| constructor].
      destruct (JS.truthy p0).
      * right. right. exists (currentLine st), word.
        rewrite E. cbn [hd]. auto.
      * rewrite append_empty_r. now apply curKind_lineKind.
    + constructor; [| constructor]. right. now left.
    + constructor.
  - eapply Forall_impl; [| exact Hmid]. intros piece Hpiece. right. now left.
Qed.

Lemma wrapWords_kind (words ws : list string) :
  Forall (fun w => JS.includes SPACE w = false) ws ->
  incl ws words ->
  forall st,
    Forall (lineKind measureText maxWidth words) (lines st) ->
    curOK (currentLine st) ->
    Forall (lineKind measureText maxWidth words) (flush (fold_left step ws st)).
Proof.
  induction 1 as [|w ws Hw _ IH]; intros Hincl st Hls Hcur.
  - simpl. unfold flush. destruct (JS.truthy (currentLine st)); [| exact Hls].
    apply Forall_app. split; [exact Hls |].
    constructor; [| constructor]. now apply curKind_lineKind.
  - cbn [fold_left].
    assert (Forall (lineKind measureText maxWidth words) (lines (step st w))
            /\ curOK (currentLine (step st w))) as [Hls' Hcur'].
    { unfold wrapStep. destruct (JS.includes LF w) eqn:Hlf.
      - apply breakWord_kind; auto. apply Hincl. now left.
      - now apply plainWord_kind. }
    apply IH; auto. intros x Hx. apply Hincl. now right.
Qed.

End WrapFacts.

Lemma plainWord_first (mt : string -> Q) (mw : Q) (ls : list string) (word : string) :
  plainWord mt mw (mkWrap ls "") word = mkWrap ls word.
Proof.
  unfold plainWord. cbn [currentLine JS.truthy lines].
  rewrite andb_false_r. reflexivity.
Qed.

Lemma plainWord_joins (mt : string -> Q) (mw : Q) (ls : list string) (cur word : string) :
  JS.truthy cur = true ->
  (mt (cur ++ " " ++ word) <= mw)%Q ->
  plainWord mt mw (mkWrap ls cur) word = mkWrap ls (cur ++ " " ++ word).
Proof.
  intros T H. unfold plainWord. cbn [currentLine lines]. rewrite T.
  apply gt_false_iff in H. rewrite H. reflexivity.
Qed.

Lemma plainWord_breaks (mt : string -> Q) (mw : Q) (ls : list string) (cur word : string) :
  JS.truthy cur = true ->
  (mw < mt (cur ++ " " ++ word))%Q ->
  plainWord mt mw (mkWrap ls cur) word = mkWrap (ls ++ [cur])%list word.
Proof.
  intros T H. unfold plainWord. cbn [currentLine lines]. rewrite T.
  apply gt_true_iff in H. rewrite H. reflexivity.
Qed.

(** C3, as the code has it. Every wrapped line either measures at most
    [maxWidth], or contains no space (a single word, or a single piece of a
    word with forced breaks, left unsplit whatever its width), or is the
    accumulator joined by a space to the first piece of a word with forced
    breaks, which is flushed without being measured. For a text without
    forced breaks, every wrapped line either measures at most [maxWidth]
    or is a single word of the text that is by itself wider than
    [maxWidth]. *)
Theorem wrapped_line_width :
  forall (measureText : string -> Q) (maxWidth : Q) (text line : string),
    In line (wrapText measureText maxWidth text) ->
    ((measureText line <= maxWidth)%Q
     \/ JS.includes SPACE line = false
     \/ exists cur word,
         In word (JS.split SPACE text) /\ JS.includes LF word = true
         /\ line = cur ++ " " ++ hd "" (JS.split LF word))
    /\
    (JS.includes LF text = false ->
     (measureText line <= maxWidth)%Q
     \/ (In line (JS.split SPACE text) /\ (maxWidth < measureText line)%Q)).
Proof.
  intros mt mw text line Hin. split.
  - assert (Forall (lineKind mt mw (JS.split SPACE text)) (wrapText mt mw text))
      as Hall.
    { unfold wrapText, wrapWords. apply wrapWords_kind.
      - apply split_pieces_no_separator.
      - apply incl_refl.
      - constructor.
      - now right. }
    rewrite Forall_forall in Hall. exact (Hall _ Hin).
  - intro Hlf.
    assert (Forall (lineOK mt mw (JS.split SPACE text)) (wrapText mt mw text))
      as Hall.
    { unfold wrapText, wrapWords. apply plainWords_lineOK.
      - now apply split_pieces_without.
      - apply incl_refl.
      - constructor.
      - now left. }
    rewrite Forall_forall in Hall. destruct (Hall _ Hin) as [Hle | Hw].
    + now left.
    + destruct (Qlt_le_dec mw (mt line)) as [Hlt | Hle]; [right | left]; auto.
Qed.

Lemma wrapped_line_width_witness :
  In "bbbbbbbbbbbbbbb"
     (wrapText (fixedPitch 18 "36px sans-serif") (inject_Z 100)
        "aaaa bbbbbbbbbbbbbbb cc dd")
  /\ JS.includes LF "aaaa bbbbbbbbbbbbbbb cc dd" = false
  /\ ((fixedPitch 18 "36px sans-serif" "bbbbbbbbbbbbbbb" <= inject_Z 100)%Q
      \/ (In "bbbbbbbbbbbbbbb" (JS.split SPACE "aaaa bbbbbbbbbbbbbbb cc dd")
          /\ (inject_Z 100 < fixedPitch 18 "36px sans-serif" "bbbbbbbbbbbbbbb")%Q)).
Proof.
  assert (In "bbbbbbbbbbbbbbb"
            (wrapText (fixedPitch 18 "36px sans-serif") (inject_Z 100)
               "aaaa bbbbbbbbbbbbbbb cc dd")) as H1
    by (vm_compute; right; left; reflexivity).
  assert (JS.includes LF "aaaa bbbbbbbbbbbbbbb cc dd" = false) as H2
    by reflexivity.
  split; [exact H1 |]. split; [exact H2 |].
  exact (proj2 (wrapped_line_width _ _ _ _ H1) H2).
Defined.

(** C3, as the claim states it, fails. Under a backend of 18 pixels per
    code unit and the 920 pixels of the renderer, the long word is a line
    of 1260 pixels; and the line flushed at a forced break, which the loop
    does not measure, is 1098 pixels wide although each word fits. *)
Lemma wrapped_line_too_wide :
  (In "pneumonoultramicroscopicsilicovolcanoconiosis-pneumonoultramicroscopic"
      (wrapText (fixedPitch 18 "36px sans-serif") (inject_Z 920) longWordText)
   /\ (inject_Z 920
       < fixedPitch 18 "36px sans-serif"
           "pneumonoultramicroscopicsilicovolcanoconiosis-pneumonoultramicroscopic")%Q)
  /\
  (In "aaaaaaaaaaaaaaaaaaaaaaaaaaaaaa bbbbbbbbbbbbbbbbbbbbbbbbbbbbbb"
      (wrapText (fixedPitch 18 "36px sans-serif") (inject_Z 920) brokenText)
   /\ (inject_Z 920
       < fixedPitch 18 "36px sans-serif"
           "aaaaaaaaaaaaaaaaaaaaaaaaaaaaaa bbbbbbbbbbbbbbbbbbbbbbbbbbbbbb")%Q).
Proof.
  split; split.
  - vm_compute. right. left. reflexivity.
  - reflexivity.
  - vm_compute. left. reflexivity.
  - reflexivity.
Qed.

(** C8. A word that contains forced breaks is split on them: the
    accumulator joined to the first piece (by a space, when both are
    not empty) is flushed as a line when it is not empty, every interior
    piece becomes a line as it is, empty or not, and the last piece becomes
    the accumulator. In particular "line one\nline two" wraps to the two
    lines "line one" and "line two", whenever "line two" fits on a line,
    and nothing is truncated. *)
Theorem forced_break_wrap :
  forall (measureText : string -> Q) (maxWidth : Q),
    (forall (st : WrapState) (word : string),
        JS.includes LF word = true ->
        exists p0 mid pl,
          JS.split LF word = (p0 :: mid ++ [pl])%list
          /\ wrapStep measureText maxWidth st word =
             mkWrap
               (lines st
                ++ (if JS.truthy (currentLine st)
                    then [(currentLine st
                           ++ (if JS.truthy p0 then " " ++ p0 else ""))%string]
                    else if JS.truthy p0 then [p0] else [])
                ++ mid)%list
               pl)
    /\
    ((measureText "line two" <= maxWidth)%Q ->
     wrapText measureText maxWidth ("line one" ++ NL ++ "line two")
     = ["line one"; "line two"]
     /\ truncated (wrapText measureText maxWidth ("line one" ++ NL ++ "line two"))
        = false).
Proof.
  intros mt mw. split.
  - intros st word Hlf.
    destruct (two_ends _ (split_with_separator _ _ Hlf)) as [p0 [mid [pl E]]].
    exists p0, mid, pl. split; [exact E |].
    unfold wrapStep. rewrite Hlf. now apply breakWord_ends.
  - intro Hfit.
    assert (wrapText mt mw ("line one" ++ NL ++ "line two")
            = ["line one"; "line two"]) as E.
    { unfold wrapText, wrapWords.
      replace (JS.split SPACE ("line one" ++ NL ++ "line two"))
        with ["line"; "one" ++ NL ++ "line"; "two"] by reflexivity.
      cbn [fold_left].
      replace (wrapStep mt mw (mkWrap [] "") "line") with (mkWrap [] "line")
        by (symmetry; apply plainWord_first).
      replace (wrapStep mt mw (mkWrap [] "line") ("one" ++ NL ++ "line"))
        with (mkWrap ["line one"] "line") by reflexivity.
      replace (wrapStep mt mw (mkWrap ["line one"] "line") "two")
        with (mkWrap ["line one"] "line two").
      - reflexivity.
      - symmetry. apply (plainWord_joins mt mw ["line one"] "line" "two");
          [reflexivity | exact Hfit]. }
    rewrite E. split; reflexivity.
Qed.

Lemma forced_break_wrap_witness :
  (fixedPitch 18 "36px sans-serif" "line two" <= inject_Z 920)%Q
  /\ wrapText (fixedPitch 18 "36px sans-serif") (inject_Z 920)
       ("line one" ++ NL ++ "line two")
     = ["line one"; "line two"]
  /\ JS.split LF ("one" ++ NL ++ NL ++ "two") = ["one"; ""; "two"]
  /\ wrapStep (fixedPitch 18 "36px sans-serif") (inject_Z 920)
       (mkWrap ["zero"] "half") ("one" ++ NL ++ NL ++ "two")
     = mkWrap ["zero"; "half one"; ""] "two".
Proof.
  assert ((fixedPitch 18 "36px sans-serif" "line two" <= inject_Z 920)%Q) as H
    by (vm_compute; discriminate).
  split; [exact H |].
  split.
  - exact (proj1 (proj2 (forced_break_wrap _ _) H)).
  - split; reflexivity.
Defined.

(** ** Drawing the visible lines *)

Lemma drawn_nil (c : Canvas) : drawn c [] = c.
Proof. unfold drawn. rewrite app_nil_r. now destruct c. Qed.

Lemma drawn_drawn (c : Canvas) (a b : list CanvasOp) :
  drawn (drawn c a) b = drawn c (a ++ b)%list.
Proof. unfold drawn. simpl. now rewrite app_assoc. Qed.

Lemma emit_drawn (op : CanvasOp) (c : Canvas) : emit op c = Some (tt, drawn c [op]).
Proof. reflexivity. Qed.

Lemma plainTextOps_length (y : Z) (ls : list string) :
  length (plainTextOps y ls) = length ls.
Proof.
  revert y. induction ls as [|l ls IH]; intro y; simpl; [| rewrite IH]; reflexivity.
Qed.

Section DrawFacts.

Variable measure : string -> string -> Q.

(** Without truncation every visible line is drawn as it is, and no fuel
    is needed. *)
Lemma drawLinesFrom_plain (fuel lineCount : nat) (visible : list string) :
  Z.of_nat lineCount <= maxVisibleLines lineCount ->
  forall i y c,
    drawLinesFrom measure fuel lineCount i y visible c
    = Some (tt, drawn c (plainTextOps y visible)).
Proof.
  intro Hle.
  assert ((Z.of_nat lineCount >? maxVisibleLines lineCount) = false) as G.
  { rewrite Z.gtb_ltb. now apply Z.ltb_ge. }
  induction visible as [|l ls IH]; intros i y c.
  - simpl. now rewrite drawn_nil.
  - cbn [drawLinesFrom plainTextOps]. rewrite G, andb_false_r.
    unfold bind. rewrite emit_drawn, IH, drawn_drawn. reflexivity.
Qed.

(** With truncation the lines before the last visible one are drawn as
    they are, and the last one goes through the ellipsis fitting. *)
Lemma drawLinesFrom_last (fuel lineCount : nat) (lastLine : string)
      (front : list string) :
  maxVisibleLines lineCount < Z.of_nat lineCount ->
  forall i y c,
    i + Z.of_nat (length front) = maxVisibleLines lineCount - 1 ->
    drawLinesFrom measure fuel lineCount i y (front ++ [lastLine]) c
    = drawEllipsisLine measure fuel lastLine
        (y + lineHeight * Z.of_nat (length front))
        (drawn c (plainTextOps y front)).
Proof.
  intro Hlt.
  assert ((Z.of_nat lineCount >? maxVisibleLines lineCount) = true) as G.
  { rewrite Z.gtb_ltb. now apply Z.ltb_lt. }
  induction front as [|l ls IH]; intros i y c Hi.
  - simpl in Hi. cbn [app drawLinesFrom]. rewrite G.
    replace (i =? maxVisibleLines lineCount - 1) with true
      by (symmetry; apply Z.eqb_eq; lia).
    cbn [andb plainTextOps length]. rewrite drawn_nil.
    replace (y + lineHeight * Z.of_nat 0) with y by lia.
    unfold bind. destruct (drawEllipsisLine measure fuel lastLine y c) as [[[] c']|];
      reflexivity.
  - cbn [app drawLinesFrom]. rewrite G.
    replace (i =? maxVisibleLines lineCount - 1) with false
      by (symmetry; apply Z.eqb_neq; simpl length in Hi; lia).
    cbn [andb]. unfold bind at 1. rewrite emit_drawn.
    rewrite IH by (simpl length in Hi; lia).
    cbn [plainTextOps]. rewrite drawn_drawn. cbn [app].
    f_equal. simpl length. lia.
Qed.

Lemma drawLines_plain (fuel : nat) (wrapped : list string) (c : Canvas) :
  Z.of_nat (length wrapped) <= maxVisibleLines (length wrapped) ->
  drawLines measure fuel wrapped c
  = Some (tt, drawn c (SetFillStyle "#F8FAFC" :: SetTextAlign "left"
                         :: plainTextOps 404 wrapped)).
Proof.
  intro Hle. unfold drawLines, bind. rewrite !emit_drawn.
  rewrite drawLinesFrom_plain by exact Hle.
  rewrite !drawn_drawn. cbn [app].
  rewrite visibleLines_firstn, firstn_all2; [reflexivity |].
  rewrite maxVisibleLines_closed in Hle. lia.
Qed.

Lemma drawLines_truncated (fuel : nat) (wrapped : list string) (c : Canvas) :
  maxVisibleLines (length wrapped) < Z.of_nat (length wrapped) ->
  drawLines measure fuel wrapped c
  = drawEllipsisLine measure fuel (nth 6 wrapped "") 692
      (drawn c (SetFillStyle "#F8FAFC" :: SetTextAlign "left"
                  :: plainTextOps 404 (firstn 6 wrapped))).
Proof.
  intro Hlt. pose proof Hlt as Hlen.
  rewrite maxVisibleLines_closed in Hlen.
  assert (7 < length wrapped)%nat as H7 by lia.
  unfold drawLines, bind. rewrite !emit_drawn.
  rewrite visibleLines_firstn.
  assert (firstn 7 wrapped = firstn 6 wrapped ++ [nth 6 wrapped ""])%list as E.
  { clear - H7. do 7 (destruct wrapped as [|? wrapped]; [simpl in H7; lia |]).
    reflexivity. }
  rewrite E.
  rewrite drawLinesFrom_last.
  - rewrite !drawn_drawn. cbn [app]. f_equal.
    rewrite length_firstn. rewrite Nat.min_l by lia. reflexivity.
  - exact Hlt.
  - rewrite length_firstn, maxVisibleLines_closed. lia.
Qed.

(** The ellipsis line is drawn exactly when the fitting loop ends. *)
Lemma drawEllipsisLine_spec (fuel : nat) (line : string) (y : Z) (c : Canvas) :
  drawEllipsisLine measure fuel line y c
  = match fitEllipsis (measure (font c)) (inject_Z maxWidth) fuel line with
    | Some t => Some (tt, drawn c [FillText (t ++ "...") (120 + textBoxPadding) y])
    | None => None
    end.
Proof.
  unfold drawEllipsisLine, bind, orDiverge.
  destruct (fitEllipsis _ _ fuel line); reflexivity.
Qed.

End DrawFacts.

(** ** Truncation *)

(** C5. When the wrapped lines are at most [maxVisibleLines], nothing is
    truncated: every wrapped line is visible and is drawn as it is, without
    an ellipsis. Otherwise the text is truncated and the number of visible
    lines is [maxVisibleLines], the floor of
    [(boxHeight - 2 * padding) / lineHeight]. *)
Theorem truncation_policy :
  forall (measure : string -> string -> Q) (fuel : nat)
         (wrapped : list string) (c : Canvas),
    (Z.of_nat (length wrapped) <= maxVisibleLines (length wrapped) ->
     truncated wrapped = false
     /\ visibleLines wrapped = wrapped
     /\ drawLines measure fuel wrapped c
        = Some (tt, drawn c (SetFillStyle "#F8FAFC" :: SetTextAlign "left"
                               :: plainTextOps 404 wrapped)))
    /\
    (maxVisibleLines (length wrapped) < Z.of_nat (length wrapped) ->
     truncated wrapped = true
     /\ Z.of_nat (length (visibleLines wrapped)) = maxVisibleLines (length wrapped)
     /\ maxVisibleLines (length wrapped)
        = (textBoxHeight (length wrapped) - 2 * textBoxPadding) / lineHeight).
Proof.
  intros measure fuel wrapped c. split.
  - intro Hle. split; [now apply truncated_false_iff |]. split.
    + rewrite visibleLines_firstn. apply firstn_all2.
      rewrite maxVisibleLines_closed in Hle. lia.
    + now apply drawLines_plain.
  - intro Hlt. split; [now apply truncated_true_iff |]. split.
    + apply visibleLines_length.
    + unfold maxVisibleLines. f_equal; lia.
Qed.

Lemma truncation_policy_witness :
  (truncated ["gm"; "frens"] = false
   /\ visibleLines ["gm"; "frens"] = ["gm"; "frens"]
   /\ drawLines (fixedPitch 34) 0 ["gm"; "frens"] createCanvas
      = Some (tt, mkCanvas "10px sans-serif"
                    [SetFillStyle "#F8FAFC"; SetTextAlign "left";
                     FillText "gm" 160 404; FillText "frens" 160 452]))
  /\
  (truncated (castLines (fixedPitch 34) cast300) = true
   /\ Z.of_nat (length (visibleLines (castLines (fixedPitch 34) cast300))) = 7).
Proof.
  split.
  - apply (proj1 (truncation_policy (fixedPitch 34) 0 ["gm"; "frens"] createCanvas)).
    vm_compute. discriminate.
  - assert (maxVisibleLines (length (castLines (fixedPitch 34) cast300))
            < Z.of_nat (length (castLines (fixedPitch 34) cast300))) as H
      by (vm_compute; reflexivity).
    destruct (proj2 (truncation_policy (fixedPitch 34) 0
                       (castLines (fixedPitch 34) cast300) createCanvas) H)
      as [Ht [Hv _]].
    split; [exact Ht |]. rewrite Hv. reflexivity.
Defined.

(** C6. Whenever the text is truncated (more wrapped lines than
    [maxVisibleLines], and [maxVisibleLines] positive), the last visible
    line is drawn as an initial segment of itself followed by "...", and
    that text measures at most [maxWidth]. It is drawn as soon as some
    initial segment fits, within one test per code unit of the line plus
    one. *)
Theorem ellipsis_line_fits :
  forall (measure : string -> string -> Q) (wrapped : list string) (c : Canvas),
    maxVisibleLines (length wrapped) < Z.of_nat (length wrapped) ->
    0 < maxVisibleLines (length wrapped) ->
    (forall fuel c',
        drawLines measure fuel wrapped c = Some (tt, c') ->
        exists t,
          isPrefix t (nth (Z.to_nat (maxVisibleLines (length wrapped) - 1)) wrapped "")
          /\ ops c'
             = (ops c
                ++ SetFillStyle "#F8FAFC" :: SetTextAlign "left"
                   :: plainTextOps 404
                        (firstn (Z.to_nat (maxVisibleLines (length wrapped) - 1)) wrapped)
                ++ [FillText (t ++ "...") (120 + textBoxPadding) 692])%list
          /\ (measure (font c) (t ++ "...") <= inject_Z maxWidth)%Q)
    /\
    ((exists p,
         isPrefix p (nth (Z.to_nat (maxVisibleLines (length wrapped) - 1)) wrapped "")
         /\ (measure (font c) (p ++ "...") <= inject_Z maxWidth)%Q) ->
     exists c',
       drawLines measure
         (S (String.length
               (nth (Z.to_nat (maxVisibleLines (length wrapped) - 1)) wrapped "")))
         wrapped c
       = Some (tt, c')).
Proof.
  intros measure wrapped c Hlt Hpos.
  assert (Z.to_nat (maxVisibleLines (length wrapped) - 1) = 6%nat) as E6.
  { rewrite maxVisibleLines_closed in *. lia. }
  rewrite E6. split.
  - intros fuel c' H.
    rewrite drawLines_truncated, drawEllipsisLine_spec in H by exact Hlt.
    cbn [font drawn] in H.
    destruct (fitEllipsis (measure (font c)) (inject_Z maxWidth) fuel
                (nth 6 wrapped "")) as [t|] eqn:F; [| discriminate].
    injection H as <-.
    destruct (fit_sound _ _ _ _ _ F) as [Hp Hf].
    exists t. split; [exact Hp |]. split; [| exact Hf].
    cbn [ops drawn]. rewrite <- app_assoc. reflexivity.
  - intro Hex.
    destruct (fit_complete (measure (font c)) (inject_Z maxWidth) _
                (nth 6 wrapped "") (le_n _) Hex) as [t F].
    rewrite drawLines_truncated, drawEllipsisLine_spec by exact Hlt.
    cbn [font drawn]. rewrite F. eauto.
Qed.

Lemma ellipsis_line_fits_witness :
  maxVisibleLines (length (castLines (fixedPitch 34) cast300))
  < Z.of_nat (length (castLines (fixedPitch 34) cast300))
  /\ 0 < maxVisibleLines (length (castLines (fixedPitch 34) cast300))
  /\ drawLines (fixedPitch 34) 4 (castLines (fixedPitch 34) cast300) createCanvas
     = Some (tt, mkCanvas "10px sans-serif"
                   [SetFillStyle "#F8FAFC"; SetTextAlign "left";
                    FillText "aaaaaaaaaaaaaaaaaaaaaaaaaa" 160 404;
                    FillText "bbbbbbbbbbbbbbbbbbbbbbbbbb" 160 452;
                    FillText "cccccccccccccccccccccccccc" 160 500;
                    FillText "dddddddddddddddddddddddddd" 160 548;
                    FillText "eeeeeeeeeeeeeeeeeeeeeeeeee" 160 596;
                    FillText "ffffffffffffffffffffffffff" 160 644;
                    FillText "gggggggggggggggggggggggg..." 160 692])
  /\ exists t,
      isPrefix t "gggggggggggggggggggggggggg"
      /\ (fixedPitch 34 "10px sans-serif" (t ++ "...") <= inject_Z maxWidth)%Q.
Proof.
  assert (maxVisibleLines (length (castLines (fixedPitch 34) cast300))
          < Z.of_nat (length (castLines (fixedPitch 34) cast300))) as H1
    by (vm_compute; reflexivity).
  assert (0 < maxVisibleLines (length (castLines (fixedPitch 34) cast300))) as H2
    by (vm_compute; reflexivity).
  assert (drawLines (fixedPitch 34) 4 (castLines (fixedPitch 34) cast300) createCanvas
          = Some (tt, mkCanvas "10px sans-serif"
                   [SetFillStyle "#F8FAFC"; SetTextAlign "left";
                    FillText "aaaaaaaaaaaaaaaaaaaaaaaaaa" 160 404;
                    FillText "bbbbbbbbbbbbbbbbbbbbbbbbbb" 160 452;
                    FillText "cccccccccccccccccccccccccc" 160 500;
                    FillText "dddddddddddddddddddddddddd" 160 548;
                    FillText "eeeeeeeeeeeeeeeeeeeeeeeeee" 160 596;
                    FillText "ffffffffffffffffffffffffff" 160 644;
                    FillText "gggggggggggggggggggggggg..." 160 692])) as H3
    by (vm_compute; reflexivity).
  split; [exact H1 |]. split; [exact H2 |]. split; [exact H3 |].
  destruct (proj1 (ellipsis_line_fits (fixedPitch 34) _ createCanvas H1 H2) _ _ H3)
    as [t [Hp [_ Hf]]].
  exists t. split; [exact Hp | exact Hf].
Defined.

(** C7, as the code has it. For a text of 300 code units without forced
    breaks that wraps to 11 lines at the width of the renderer, the number
    of visible lines is 7: the text is truncated, 7 lines are visible, the
    first six are drawn as they are and the seventh goes through the
    ellipsis fitting. *)
Theorem scenario_eleven_lines :
  forall (measure : string -> string -> Q) (castInfo : Cast),
    String.length (text castInfo) = 300%nat ->
    JS.includes LF (text castInfo) = false ->
    length (castLines measure castInfo) = 11%nat ->
    maxVisibleLines (length (castLines measure castInfo)) = 7
    /\ truncated (castLines measure castInfo) = true
    /\ length (visibleLines (castLines measure castInfo)) = 7%nat
    /\ forall fuel c,
        drawLines measure fuel (castLines measure castInfo) c
        = drawEllipsisLine measure fuel (nth 6 (castLines measure castInfo) "") 692
            (drawn c (SetFillStyle "#F8FAFC" :: SetTextAlign "left"
                        :: plainTextOps 404 (firstn 6 (castLines measure castInfo)))).
Proof.
  intros measure castInfo _ _ H11.
  assert (maxVisibleLines (length (castLines measure castInfo)) = 7) as E7
    by (rewrite H11; reflexivity).
  assert (maxVisibleLines (length (castLines measure castInfo))
          < Z.of_nat (length (castLines measure castInfo))) as Hlt
    by (rewrite E7, H11; reflexivity).
  split; [exact E7 |]. split; [now apply truncated_true_iff |]. split.
  - pose proof (visibleLines_length (castLines measure castInfo)) as Hv. lia.
  - intros fuel c. now apply drawLines_truncated.
Qed.

Lemma scenario_eleven_lines_witness :
  String.length (text cast300) = 300%nat
  /\ JS.includes LF (text cast300) = false
  /\ length (castLines (fixedPitch 34) cast300) = 11%nat
  /\ maxVisibleLines (length (castLines (fixedPitch 34) cast300)) = 7
  /\ truncated (castLines (fixedPitch 34) cast300) = true
  /\ length (visibleLines (castLines (fixedPitch 34) cast300)) = 7%nat.
Proof.
  assert (String.length (text cast300) = 300%nat) as H1 by reflexivity.
  assert (JS.includes LF (text cast300) = false) as H2 by reflexivity.
  assert (length (castLines (fixedPitch 34) cast300) = 11%nat) as H3
    by (vm_compute; reflexivity).
  destruct (scenario_eleven_lines (fixedPitch 34) cast300 H1 H2 H3)
    as [E7 [Ht [Hv _]]].
  repeat (split; [assumption |]). assumption.
Defined.

(** C7, as the claim states it, fails: on a text of 300 code units that
    wraps to 11 lines the renderer computes 7 visible lines, not 9, and
    shows 7. *)
Lemma scenario_eleven_lines_not_nine :
  String.length (text cast300) = 300%nat
  /\ JS.includes LF (text cast300) = false
  /\ length (castLines (fixedPitch 34) cast300) = 11%nat
  /\ maxVisibleLines (length (castLines (fixedPitch 34) cast300)) = 7
  /\ maxVisibleLines (length (castLines (fixedPitch 34) cast300)) <> 9
  /\ length (visibleLines (castLines (fixedPitch 34) cast300)) = 7%nat
  /\ length (visibleLines (castLines (fixedPitch 34) cast300)) <> 9%nat.
Proof.
  repeat split; try (vm_compute; reflexivity); vm_compute; discriminate.
Qed.

(** ** The drawing monad *)

Lemma bind_emit {B : Type} (op : CanvasOp) (k : unit -> Draw B) (c : Canvas) :
  bind (emit op) k c = k tt (drawn c [op]).
Proof. reflexivity. Qed.

Lemma bind_Some {A B : Type} (m : Draw A) (k : A -> Draw B) (c : Canvas)
      (r : B * Canvas) :
  bind m k c = Some r <-> exists a c', m c = Some (a, c') /\ k a c' = Some r.
Proof.
  unfold bind. split.
  - destruct (m c) as [[a c']|]; [| discriminate]. intro H. now exists a, c'.
  - intros [a [c' [E H]]]. now rewrite E.
Qed.

Lemma runs_ret {A : Type} (a : A) : runs (ret a).
Proof. intro c. exists a, c, []. now rewrite app_nil_r. Qed.

Lemma runs_emit (op : CanvasOp) : runs (emit op).
Proof. intro c. now exists tt, (drawn c [op]), [op]. Qed.

Lemma runs_setFont (f : string) : runs (setFont f).
Proof. intro c. now exists tt, (mkCanvas f (ops c ++ [SetFont f])), [SetFont f]. Qed.

Lemma runs_withFont {A : Type} (f : string -> A) : runs (withFont f).
Proof. intro c. exists (f (font c)), c, []. now rewrite app_nil_r. Qed.

Lemma runs_bind {A B : Type} (m : Draw A) (k : A -> Draw B) :
  runs m -> (forall a, runs (k a)) -> runs (bind m k).
Proof.
  intros Hm Hk c. destruct (Hm c) as [a [c1 [l1 [E1 O1]]]].
  destruct (Hk a c1) as [b [c2 [l2 [E2 O2]]]].
  exists b, c2, (l1 ++ l2)%list. split.
  - unfold bind. now rewrite E1.
  - now rewrite O2, O1, app_assoc.
Qed.

Create HintDb draw.
#[local] Hint Resolve runs_ret runs_emit runs_setFont runs_withFont : draw.

Ltac runs_chain :=
  repeat first
    [ apply runs_bind; [| intro ]
    | solve [ auto with draw ]
    | match goal with
      | |- runs (if ?b then _ else _) => destruct b
      | |- runs (match ?o with Some _ => _ | None => _ end) => destruct o
      end ].

Lemma fuelMono_const {A : Type} (m : Draw A) : fuelMono (fun _ => m).
Proof. intros fuel fuel' c r _ H. exact H. Qed.

Lemma fuelMono_bind {A B : Type} (m : nat -> Draw A) (k : nat -> A -> Draw B) :
  fuelMono m -> (forall a, fuelMono (fun fuel => k fuel a)) ->
  fuelMono (fun fuel => bind (m fuel) (k fuel)).
Proof.
  intros Hm Hk fuel fuel' c r Hle H.
  apply bind_Some in H as [a [c' [E H]]].
  apply bind_Some. exists a, c'. split.
  - eapply Hm; eassumption.
  - eapply (Hk a); eassumption.
Qed.

Section RenderFacts.

Variable measure : string -> string -> Q.

Lemma drawHeader_runs (tokenName : string) : runs (drawHeader tokenName).
Proof. unfold drawHeader. runs_chain. Qed.

Lemma drawAuthor_runs (a : Author) : runs (drawAuthor measure a).
Proof. unfold drawAuthor, measureTextM. runs_chain. Qed.

Lemma drawTextBox_runs (boxHeight : Z) : runs (drawTextBox boxHeight).
Proof. unfold drawTextBox. runs_chain. Qed.

Lemma drawToken_runs (tokenName : string) (boxHeight : Z) :
  runs (drawToken tokenName boxHeight).
Proof. unfold drawToken. runs_chain. Qed.

Lemma drawFooter_spec (now : string) (c : Canvas) :
  drawFooter now c
  = Some (tt, mkCanvas "20px sans-serif" (ops c ++ footerOps now)%list).
Proof.
  unfold drawFooter, bind, emit, setFont. cbn [font ops].
  rewrite <- !app_assoc. reflexivity.
Qed.

(** The cast text is wrapped under the 36-pixel font whatever was drawn
    before. *)
Lemma drawCastText_spec (fuel : nat) (castInfo : Cast) (c : Canvas) :
  drawCastText measure fuel castInfo c
  = match drawTextBox (textBoxHeight (length (castLines measure castInfo)))
            (mkCanvas "36px sans-serif"
               (ops c ++ [SetFont "36px sans-serif"; SetFillStyle "#F8FAFC"])%list)
    with
    | Some (_, c1) =>
        match drawLines measure fuel (castLines measure castInfo) c1 with
        | Some (_, c2) =>
            Some (textBoxHeight (length (castLines measure castInfo)), c2)
        | None => None
        end
    | None => None
    end.
Proof.
  unfold drawCastText, bind at 1 2 3, setFont, emit at 1, wrapM, withFont.
  cbn [font ops]. rewrite <- app_assoc. cbn [app].
  unfold castLines, bind, ret. reflexivity.
Qed.

Lemma drawEllipsisLine_mono (line : string) (y : Z) :
  fuelMono (fun fuel => drawEllipsisLine measure fuel line y).
Proof.
  intros fuel fuel' c r Hle H. rewrite drawEllipsisLine_spec in *.
  destruct (fitEllipsis _ _ fuel line) as [t|] eqn:F; [| discriminate].
  now rewrite (fit_mono _ _ _ _ _ _ Hle F).
Qed.

Lemma drawLinesFrom_mono (lineCount : nat) (visible : list string) :
  forall i y, fuelMono (fun fuel => drawLinesFrom measure fuel lineCount i y visible).
Proof.
  induction visible as [|l ls IH]; intros i y; cbn [drawLinesFrom].
  - apply fuelMono_const.
  - apply (fuelMono_bind
             (fun fuel =>
                if ((i =? maxVisibleLines lineCount - 1)
                    && (Z.of_nat lineCount >? maxVisibleLines lineCount))%bool
                then drawEllipsisLine measure fuel l y
                else emit (FillText l (120 + textBoxPadding) y))
             (fun fuel _ =>
                drawLinesFrom measure fuel lineCount (i + 1) (y + lineHeight) ls)).
    + destruct (_ && _)%bool.
      * apply drawEllipsisLine_mono.
      * apply fuelMono_const.
    + intros _. apply IH.
Qed.

Lemma drawLines_mono (wrapped : list string) :
  fuelMono (fun fuel => drawLines measure fuel wrapped).
Proof.
  unfold drawLines.
  apply (fuelMono_bind (fun _ => emit (SetFillStyle "#F8FAFC"))); intros;
    [apply fuelMono_const |].
  apply (fuelMono_bind (fun _ => emit (SetTextAlign "left"))); intros;
    [apply fuelMono_const |].
  apply drawLinesFrom_mono.
Qed.

Lemma drawCastText_mono (castInfo : Cast) :
  fuelMono (fun fuel => drawCastText measure fuel castInfo).
Proof.
  intros fuel fuel' c r Hle H. rewrite drawCastText_spec in *.
  destruct (drawTextBox _ _) as [[[] c1]|]; [| discriminate].
  destruct (drawLines measure fuel _ c1) as [[[] c2]|] eqn:E; [| discriminate].
  now rewrite (drawLines_mono _ _ _ _ _ Hle E).
Qed.

Lemma drawCard_mono (castInfo : Cast) (tokenName : string) :
  fuelMono (fun fuel => drawCard measure fuel castInfo tokenName).
Proof.
  unfold drawCard.
  apply (fuelMono_bind (fun _ => drawHeader tokenName)); intros;
    [apply fuelMono_const |].
  apply (fuelMono_bind (fun _ => drawAuthor measure (author castInfo))); intros;
    [apply fuelMono_const |].
  apply (fuelMono_bind (fun fuel => drawCastText measure fuel castInfo)
                       (fun _ boxHeight => drawToken tokenName boxHeight)).
  - apply drawCastText_mono.
  - intros. apply fuelMono_const.
Qed.

(** The render is the card followed by the footer. *)
Lemma renderCanvas_spec (fuel : nat) (now : string) (castInfo : Cast)
      (tokenName : string) :
  renderCanvas measure fuel now castInfo tokenName
  = match drawCard measure fuel castInfo tokenName createCanvas with
    | Some (_, c) => Some (ops c ++ footerOps now)%list
    | None => None
    end.
Proof.
  unfold renderCanvas, bind.
  destruct (drawCard measure fuel castInfo tokenName createCanvas) as [[[] c]|];
    [| reflexivity].
  now rewrite drawFooter_spec.
Qed.

(** Two runs that both end drew the same card. *)
Lemma drawCard_fuel_irrelevant (fuel1 fuel2 : nat) (castInfo : Cast)
      (tokenName : string) (c : Canvas) (r1 r2 : unit * Canvas) :
  drawCard measure fuel1 castInfo tokenName c = Some r1 ->
  drawCard measure fuel2 castInfo tokenName c = Some r2 ->
  r1 = r2.
Proof.
  intros H1 H2.
  pose proof (drawCard_mono castInfo tokenName _ _ _ _
                (Nat.le_max_l fuel1 fuel2) H1) as E1.
  pose proof (drawCard_mono castInfo tokenName _ _ _ _
                (Nat.le_max_r fuel1 fuel2) H2) as E2.
  congruence.
Qed.

End RenderFacts.


(** ** The render as a whole *)

(** Two renders of one cast that both end made the same calls up to the
    footer. *)
Lemma renderCanvas_card (measure : string -> string -> Q) (fuel1 fuel2 : nat)
      (now1 now2 : string) (castInfo : Cast) (tokenName : string)
      (calls1 calls2 : list CanvasOp) :
  renderCanvas measure fuel1 now1 castInfo tokenName = Some calls1 ->
  renderCanvas measure fuel2 now2 castInfo tokenName = Some calls2 ->
  exists card,
    calls1 = (card ++ footerOps now1)%list /\ calls2 = (card ++ footerOps now2)%list.
Proof.
  intros H1 H2. rewrite renderCanvas_spec in H1, H2.
  destruct (drawCard measure fuel1 castInfo tokenName createCanvas)
    as [[[] c1]|] eqn:D1; [| discriminate].
  destruct (drawCard measure fuel2 castInfo tokenName createCanvas)
    as [[[] c2]|] eqn:D2; [| discriminate].
  pose proof (drawCard_fuel_irrelevant _ _ _ _ _ _ _ _ D1 D2) as E.
  injection E as <-. injection H1 as <-. injection H2 as <-.
  now exists (ops c1).
Qed.

Lemma option_map_differs {A B : Type} (f : A -> B) (x y : option A) (a b : A) :
  x = Some a -> y = Some b -> f a <> f b -> option_map f x <> option_map f y.
Proof. intros -> -> Hne E. injection E as E. contradiction. Qed.

(** The footer determines the time it prints. *)
Lemma footerOps_inj (card : list CanvasOp) (now1 now2 : string) :
  (card ++ footerOps now1)%list = (card ++ footerOps now2)%list -> now1 = now2.
Proof.
  intro E. apply app_inv_head in E. unfold footerOps in E.
  injection E as E. unfold footerText in E.
  repeat apply append_inj_l in E. exact E.
Qed.

(** C2, as the code has it. Two renders of the same cast and token name
    under the same measurement backend make the same canvas calls, and so
    encode to the same bytes, exactly when they read the same time from the
    clock: the footer carries the timestamp of the call, and nothing else
    differs. *)
Theorem render_deterministic_up_to_clock :
  forall (measure : string -> string -> Q)
         (toBuffer : list CanvasOp -> list Byte.byte)
         (fuel1 fuel2 : nat) (now1 now2 : string)
         (castInfo : Cast) (tokenName : string) (calls1 calls2 : list CanvasOp),
    renderCanvas measure fuel1 now1 castInfo tokenName = Some calls1 ->
    renderCanvas measure fuel2 now2 castInfo tokenName = Some calls2 ->
    (now1 = now2 <-> calls1 = calls2)
    /\ (now1 = now2 ->
        generateImageForCast measure toBuffer fuel1 now1 castInfo tokenName
        = generateImageForCast measure toBuffer fuel2 now2 castInfo tokenName)
    /\ exists card,
        calls1 = (card ++ footerOps now1)%list
        /\ calls2 = (card ++ footerOps now2)%list.
Proof.
  intros measure toBuffer fuel1 fuel2 now1 now2 castInfo tokenName calls1 calls2 H1 H2.
  destruct (renderCanvas_card _ _ _ _ _ _ _ _ _ H1 H2) as [card [E1 E2]].
  assert (now1 = now2 <-> calls1 = calls2) as Hiff.
  { rewrite E1, E2. split; [intros ->; reflexivity | apply footerOps_inj]. }
  split; [exact Hiff |]. split; [| now exists card].
  intro E. unfold generateImageForCast. rewrite H1, H2.
  apply Hiff in E. rewrite E. reflexivity.
Qed.

Lemma render_deterministic_up_to_clock_witness :
  exists calls1 calls2,
    renderCanvas (fixedPitch 18) 0 "2025-01-01T00:00:00.000Z" shortCast "MoonCat"
    = Some calls1
    /\ renderCanvas (fixedPitch 18) 5 "2025-01-01T00:00:00.000Z" shortCast "MoonCat"
       = Some calls2
    /\ calls1 = calls2.
Proof.
  assert (exists calls,
             renderCanvas (fixedPitch 18) 0 "2025-01-01T00:00:00.000Z"
               shortCast "MoonCat" = Some calls) as [calls1 H1]
    by (vm_compute; eexists; reflexivity).
  assert (exists calls,
             renderCanvas (fixedPitch 18) 5 "2025-01-01T00:00:00.000Z"
               shortCast "MoonCat" = Some calls) as [calls2 H2]
    by (vm_compute; eexists; reflexivity).
  exists calls1, calls2. split; [exact H1 |]. split; [exact H2 |].
  exact (proj1 (proj1 (render_deterministic_up_to_clock (fixedPitch 18)
                         (fun _ => []) _ _ _ _ _ _ _ _ H1 H2))
               eq_refl).
Defined.

(** C2, as the claim states it, fails: two renders of the same cast and
    token name, one millisecond apart, make different canvas calls, and
    every encoder that tells different drawings apart gives different
    bytes. *)
Lemma render_depends_on_clock :
  exists calls1 calls2,
    renderCanvas (fixedPitch 18) 0 "2025-01-01T00:00:00.000Z" shortCast "MoonCat"
    = Some calls1
    /\ renderCanvas (fixedPitch 18) 0 "2025-01-01T00:00:00.001Z" shortCast "MoonCat"
       = Some calls2
    /\ calls1 <> calls2
    /\ forall toBuffer : list CanvasOp -> list Byte.byte,
        (forall a b, toBuffer a = toBuffer b -> a = b) ->
        generateImageForCast (fixedPitch 18) toBuffer 0
          "2025-01-01T00:00:00.000Z" shortCast "MoonCat"
        <> generateImageForCast (fixedPitch 18) toBuffer 0
             "2025-01-01T00:00:00.001Z" shortCast "MoonCat".
Proof.
  assert (exists calls,
             renderCanvas (fixedPitch 18) 0 "2025-01-01T00:00:00.000Z"
               shortCast "MoonCat" = Some calls) as [calls1 H1]
    by (vm_compute; eexists; reflexivity).
  assert (exists calls,
             renderCanvas (fixedPitch 18) 0 "2025-01-01T00:00:00.001Z"
               shortCast "MoonCat" = Some calls) as [calls2 H2]
    by (vm_compute; eexists; reflexivity).
  assert (calls1 <> calls2) as Hne.
  { intro E. destruct (renderCanvas_card _ _ _ _ _ _ _ _ _ H1 H2) as [card [E1 E2]].
    rewrite E1, E2 in E. apply footerOps_inj in E. discriminate E. }
  exists calls1, calls2. split; [exact H1 |]. split; [exact H2 |].
  split; [exact Hne |].
  intros toBuffer Hinj. unfold generateImageForCast.
  exact (option_map_differs toBuffer _ _ _ _ H1 H2 (fun E => Hne (Hinj _ _ E))).
Qed.

(** ** Empty cast text *)

Lemma wrapText_empty (mt : string -> Q) (mw : Q) : wrapText mt mw "" = [].
Proof.
  unfold wrapText, wrapWords. cbn [JS.split fold_left].
  unfold wrapStep. cbn [JS.includes]. rewrite plainWord_first. reflexivity.
Qed.

Lemma castTextOf_empty (castInfo : Cast) :
  text castInfo = "" -> castTextOf castInfo = "No cast text available".
Proof. unfold castTextOf. intros ->. reflexivity. Qed.

(** The placeholder wraps to at least one line and at most four. *)
Lemma placeholder_lines (mt : string -> Q) (mw : Q) :
  (1 <= length (wrapText mt mw "No cast text available") <= 4)%nat.
Proof.
  unfold wrapText, wrapWords. rewrite flush_length.
  replace (JS.split SPACE "No cast text available")
    with ["No"; "cast"; "text"; "available"] by reflexivity.
  destruct (plainWords_pending mt mw ["No"; "cast"; "text"; "available"]
              ltac:(repeat constructor) (mkWrap [] "")) as [[_ Hup] Hlow].
  split.
  - apply Hlow. left. reflexivity.
  - exact Hup.
Qed.

(** C9, as the code has it. An empty cast text is not an error, but it is
    not wrapped either: the renderer wraps the placeholder "No cast text
    available" in its stead, which gives between one and four lines, never
    zero. Nothing is truncated, and the render ends, whatever the fuel,
    with these lines drawn as they are. The wrap loop alone would give no
    line on the empty string. *)
Theorem empty_text_placeholder :
  forall (measure : string -> string -> Q) (fuel : nat) (now : string)
         (castInfo : Cast) (tokenName : string),
    text castInfo = "" ->
    castLines measure castInfo
    = wrapText (measure "36px sans-serif") (inject_Z maxWidth) "No cast text available"
    /\ (1 <= length (castLines measure castInfo) <= 4)%nat
    /\ truncated (castLines measure castInfo) = false
    /\ (exists before after,
           renderCanvas measure fuel now castInfo tokenName
           = Some (before ++ plainTextOps 404 (castLines measure castInfo) ++ after)%list)
    /\ (forall (mt : string -> Q) (mw : Q), wrapText mt mw "" = []).
Proof.
  intros measure fuel now castInfo tokenName Hempty.
  assert (castLines measure castInfo
          = wrapText (measure "36px sans-serif") (inject_Z maxWidth)
              "No cast text available") as EL.
  { unfold castLines. now rewrite castTextOf_empty. }
  pose proof (placeholder_lines (measure "36px sans-serif") (inject_Z maxWidth))
    as Hlen.
  rewrite <- EL in Hlen.
  assert (Z.of_nat (length (castLines measure castInfo))
          <= maxVisibleLines (length (castLines measure castInfo))) as Hle.
  { rewrite maxVisibleLines_closed. lia. }
  split; [exact EL |]. split; [exact Hlen |].
  split; [now apply truncated_false_iff |].
  split; [| apply wrapText_empty].
  set (L := castLines measure castInfo) in *.
  destruct (drawHeader_runs tokenName createCanvas) as [[] [c1 [l1 [E1 _]]]].
  destruct (drawAuthor_runs measure (author castInfo) c1) as [[] [c2 [l2 [E2 _]]]].
  destruct (drawTextBox_runs (textBoxHeight (length L))
              (mkCanvas "36px sans-serif"
                 (ops c2 ++ [SetFont "36px sans-serif"; SetFillStyle "#F8FAFC"])%list))
    as [[] [c3 [l3 [E3 _]]]].
  pose proof (drawLines_plain measure fuel L c3 Hle) as E4.
  destruct (drawToken_runs tokenName (textBoxHeight (length L))
              (drawn c3 (SetFillStyle "#F8FAFC" :: SetTextAlign "left"
                           :: plainTextOps 404 L)))
    as [[] [c5 [l5 [E5 O5]]]].
  exists (ops c3 ++ [SetFillStyle "#F8FAFC"; SetTextAlign "left"])%list,
         (l5 ++ footerOps now)%list.
  rewrite renderCanvas_spec.
  assert (drawCard measure fuel castInfo tokenName createCanvas = Some (tt, c5)) as E.
  { unfold drawCard. apply bind_Some. exists tt, c1. split; [exact E1 |].
    apply bind_Some. exists tt, c2. split; [exact E2 |].
    apply bind_Some.
    exists (textBoxHeight (length L)),
           (drawn c3 (SetFillStyle "#F8FAFC" :: SetTextAlign "left"
                        :: plainTextOps 404 L)).
    split; [| exact E5].
    rewrite drawCastText_spec. fold L. rewrite E3, E4. reflexivity. }
  rewrite E, O5. cbn [ops drawn]. f_equal.
  rewrite <- !app_assoc. reflexivity.
Qed.

Lemma empty_text_placeholder_witness :
  text emptyCast = ""
  /\ (1 <= length (castLines (fixedPitch 18) emptyCast) <= 4)%nat
  /\ truncated (castLines (fixedPitch 18) emptyCast) = false.
Proof.
  assert (text emptyCast = "") as H by reflexivity.
  destruct (empty_text_placeholder (fixedPitch 18) 0 "2025-01-01T00:00:00.000Z"
              emptyCast "MoonCat" H) as [_ [Hlen [Ht _]]].
  split; [exact H |]. split; [exact Hlen | exact Ht].
Defined.

(** C9, as the claim states it, fails: for a cast whose text is empty the
    wrapping stage of the render yields one line, the placeholder, and
    draws it. *)
Lemma empty_text_not_zero_lines :
  text emptyCast = ""
  /\ castLines (fixedPitch 18) emptyCast = ["No cast text available"]
  /\ castLines (fixedPitch 18) emptyCast <> []
  /\ exists calls,
      renderCanvas (fixedPitch 18) 0 "2025-01-01T00:00:00.000Z" emptyCast "MoonCat"
      = Some calls
      /\ In (FillText "No cast text available" 160 404) calls.
Proof.
  split; [reflexivity |].
  assert (castLines (fixedPitch 18) emptyCast = ["No cast text available"]) as E
    by (vm_compute; reflexivity).
  split; [exact E |]. split; [rewrite E; discriminate |].
  vm_compute. eexists. split; [reflexivity |].
  repeat first [left; reflexivity | right].
Qed.

(** * Further properties of the renderer *)

(** ** Words are kept by the wrap loop *)

Lemma includes_append (c : ascii) (a b : string) :
  JS.includes c (a ++ b) = (JS.includes c a || JS.includes c b)%bool.
Proof.
  induction a as [|x a IH]; [reflexivity |].
  cbn [append JS.includes]. destruct (Ascii.eqb x c); [reflexivity | exact IH].
Qed.

(** Splitting a string that was joined by the separator. *)
Lemma split_joined (c : ascii) (a b : string) :
  JS.split c (a ++ String c b) = (JS.split c a ++ JS.split c b)%list.
Proof.
  induction a as [|x a IH].
  - cbn [append]. rewrite split_cons, Ascii.eqb_refl. reflexivity.
  - cbn [append]. rewrite !split_cons, IH.
    pose proof (split_not_nil c a) as Hne.
    destruct (Ascii.eqb x c); [reflexivity |].
    destruct (JS.split c a); [contradiction | reflexivity].
Qed.

Lemma nonEmptyWords_app (a b : list string) :
  nonEmptyWords (a ++ b) = (nonEmptyWords a ++ nonEmptyWords b)%list.
Proof. unfold nonEmptyWords. now rewrite flat_map_app, filter_app. Qed.

Lemma nonEmptyWords_one (l : string) :
  nonEmptyWords [l] = filter JS.truthy (JS.split SPACE l).
Proof. unfold nonEmptyWords. cbn [flat_map]. now rewrite app_nil_r. Qed.

Lemma nonEmptyWords_spaceless (ls : list string) :
  Forall (fun l => JS.includes SPACE l = false) ls ->
  nonEmptyWords ls = filter JS.truthy ls.
Proof.
  induction 1 as [|l ls Hl _ IH]; [reflexivity |].
  change (l :: ls) with ([l] ++ ls)%list.
  rewrite nonEmptyWords_app, nonEmptyWords_one, IH, filter_app.
  now rewrite (split_no_separator _ _ Hl).
Qed.

Section WrapWords.

Variable measureText : string -> Q.
Variable maxWidth : Q.

Local Abbreviation step := (wrapStep measureText maxWidth).

(** The words the state stands for. *)
Local Abbreviation held st := (nonEmptyWords (lines st ++ [currentLine st])).

Lemma plainWord_words (st : WrapState) (word : string) :
  JS.includes SPACE word = false ->
  held (plainWord measureText maxWidth st word)
  = (held st ++ filter JS.truthy [word])%list.
Proof.
  intro Hsp. unfold plainWord.
  destruct (JS.gt _ maxWidth && JS.truthy (currentLine st))%bool eqn:B.
  - unfold setCurrent, push. cbn [lines currentLine].
    rewrite (nonEmptyWords_app (lines st ++ [currentLine st])).
    rewrite nonEmptyWords_one, (split_no_separator _ _ Hsp). reflexivity.
  - unfold setCurrent. cbn [lines currentLine].
    rewrite !nonEmptyWords_app, !nonEmptyWords_one, <- app_assoc. f_equal.
    destruct (currentLine st) as [|x cur] eqn:C.
    + cbn [JS.truthy append]. now rewrite (split_no_separator _ _ Hsp).
    + cbn [JS.truthy].
      change (String x cur ++ " " ++ word) with (String x cur ++ String SPACE word).
      rewrite split_joined, filter_app, (split_no_separator _ _ Hsp). reflexivity.
Qed.

Lemma breakWord_words (st : WrapState) (word : string) :
  JS.includes SPACE word = false ->
  JS.includes LF word = true ->
  held (breakWord st word)
  = (held st ++ filter JS.truthy (JS.split LF word))%list.
Proof.
  intros Hsp Hlf.
  destruct (two_ends _ (split_with_separator _ _ Hlf)) as [p0 [mid [pl E]]].
  pose proof (split_pieces_without SPACE LF word Hsp) as Hparts.
  rewrite E in Hparts. rewrite E.
  inversion Hparts as [|? ? Hp0 Hrest]; subst.
  apply Forall_app in Hrest as [Hmid Hpl].
  inversion Hpl as [|? ? Hpl' _]; subst.
  rewrite (breakWord_ends st word p0 pl mid E). cbn [lines currentLine].
  rewrite !nonEmptyWords_app, !nonEmptyWords_one, <- !app_assoc. f_equal.
  rewrite (nonEmptyWords_spaceless mid Hmid).
  rewrite (split_no_separator _ _ Hpl').
  change (p0 :: mid ++ [pl])%list with ([p0] ++ mid ++ [pl])%list.
  rewrite !filter_app, !app_assoc. f_equal. f_equal.
  destruct (currentLine st) as [|x cur] eqn:C; cbn [JS.truthy].
  - destruct p0 as [|y p0]; cbn [JS.truthy]; [reflexivity |].
    rewrite nonEmptyWords_one, (split_no_separator _ _ Hp0). reflexivity.
  - rewrite nonEmptyWords_one.
    destruct p0 as [|y p0]; cbn [JS.truthy].
    + now rewrite append_empty_r, app_nil_r.
    + change (String x cur ++ " " ++ String y p0)
        with (String x cur ++ String SPACE (String y p0)).
      rewrite split_joined, filter_app, (split_no_separator _ _ Hp0). reflexivity.
Qed.

Lemma wrapStep_words (st : WrapState) (word : string) :
  JS.includes SPACE word = false ->
  held (step st word) = (held st ++ filter JS.truthy (JS.split LF word))%list.
Proof.
  intro Hsp. unfold wrapStep. destruct (JS.includes LF word) eqn:Hlf.
  - now apply breakWord_words.
  - rewrite (split_no_separator _ _ Hlf). now apply plainWord_words.
Qed.

Lemma wrapSteps_words (ws : list string) :
  Forall (fun w => JS.includes SPACE w = false) ws ->
  forall st,
    held (fold_left step ws st)
    = (held st ++ filter JS.truthy (flat_map (JS.split LF) ws))%list.
Proof.
  induction 1 as [|w ws Hw _ IH]; intro st.
  - cbn [fold_left flat_map filter]. now rewrite app_nil_r.
  - cbn [fold_left flat_map]. rewrite IH, (wrapStep_words _ _ Hw).
    now rewrite filter_app, app_assoc.
Qed.

Lemma flush_words (st : WrapState) : nonEmptyWords (flush st) = held st.
Proof.
  unfold flush. destruct (currentLine st) as [|x cur] eqn:C; cbn [JS.truthy].
  - rewrite nonEmptyWords_app, nonEmptyWords_one. cbn. now rewrite app_nil_r.
  - reflexivity.
Qed.

End WrapWords.

(** X1. Wrapping neither drops, nor duplicates, nor reorders words: the
    non-empty words of the wrapped lines are the non-empty pieces of the
    text cut at its spaces and line breaks, in the same order. *)
Theorem wrapText_keeps_words :
  forall (measureText : string -> Q) (maxWidth : Q) (castText : string),
    nonEmptyWords (wrapText measureText maxWidth castText) = textPieces castText.
Proof.
  intros mt mw castText. unfold wrapText, wrapWords, textPieces.
  rewrite flush_words, wrapSteps_words by apply split_pieces_no_separator.
  reflexivity.
Qed.

(** ** Line breaks and empty lines *)

Section WrapShape.

Variable measureText : string -> Q.
Variable maxWidth : Q.

Local Abbreviation step := (wrapStep measureText maxWidth).
Local Abbreviation unbroken l := (JS.includes LF l = false).

Lemma wrapStep_unbroken (st : WrapState) (word : string) :
  Forall (fun l => unbroken l) (lines st) -> unbroken (currentLine st) ->
  Forall (fun l => unbroken l) (lines (step st word))
  /\ unbroken (currentLine (step st word)).
Proof.
  intros Hls Hcur. unfold wrapStep. destruct (JS.includes LF word) eqn:Hlf.
  - destruct (two_ends _ (split_with_separator _ _ Hlf)) as [p0 [mid [pl E]]].
    pose proof (split_pieces_no_separator LF word) as Hparts.
    rewrite E in Hparts.
    inversion Hparts as [|? ? Hp0 Hrest]; subst.
    apply Forall_app in Hrest as [Hmid Hpl].
    inversion Hpl as [|? ? Hpl' _]; subst.
    rewrite (breakWord_ends st word p0 pl mid E). cbn [lines currentLine].
    split; [| exact Hpl'].
    apply Forall_app. split; [exact Hls |].
    apply Forall_app. split; [| exact Hmid].
    destruct (JS.truthy (currentLine st)); [| destruct (JS.truthy p0)];
      repeat constructor; try assumption.
    rewrite includes_append, Hcur.
    destruct (JS.truthy p0); [| reflexivity].
    rewrite includes_append, Hp0. reflexivity.
  - unfold plainWord.
    destruct (JS.gt _ maxWidth && JS.truthy (currentLine st))%bool;
      unfold setCurrent, push; cbn [lines currentLine].
    + split; [| exact Hlf].
      apply Forall_app. split; [exact Hls | repeat constructor; exact Hcur].
    + split; [exact Hls |].
      rewrite !includes_append, Hcur, Hlf.
      now destruct (JS.truthy (currentLine st)).
Qed.

Lemma wrapSteps_unbroken (ws : list string) :
  forall st,
    Forall (fun l => unbroken l) (lines st) -> unbroken (currentLine st) ->
    Forall (fun l => unbroken l) (flush (fold_left step ws st)).
Proof.
  induction ws as [|w ws IH]; intros st Hls Hcur.
  - cbn [fold_left]. unfold flush.
    destruct (JS.truthy (currentLine st)); [| exact Hls].
    apply Forall_app. split; [exact Hls | repeat constructor; exact Hcur].
  - cbn [fold_left]. destruct (wrapStep_unbroken st w Hls Hcur) as [Hls' Hcur'].
    now apply IH.
Qed.

(** A plain word adds a line only if it is not empty, and never pushes an
    empty line. *)
Lemma plainWord_count (st : WrapState) (word : string) :
  Forall (fun l => JS.truthy l = true) (lines st) ->
  Forall (fun l => JS.truthy l = true) (lines (plainWord measureText maxWidth st word))
  /\ (pending (plainWord measureText maxWidth st word)
      <= pending st + length (filter JS.truthy [word]))%nat.
Proof.
  intro Hls. unfold plainWord, pending.
  destruct (JS.gt _ maxWidth && JS.truthy (currentLine st))%bool eqn:B.
  - apply andb_prop in B as [_ Hc].
    unfold setCurrent, push. cbn [lines currentLine filter]. split.
    + apply Forall_app. split; [exact Hls | repeat constructor; exact Hc].
    + rewrite Hc, length_app. destruct (JS.truthy word); simpl; lia.
  - unfold setCurrent. cbn [lines currentLine filter]. split; [exact Hls |].
    rewrite !truthy_append.
    destruct (JS.truthy (currentLine st)), (JS.truthy word); simpl; lia.
Qed.

Lemma plainWords_count (ws : list string) :
  Forall (fun w => unbroken w) ws ->
  forall st,
    Forall (fun l => JS.truthy l = true) (lines st) ->
    Forall (fun l => JS.truthy l = true) (flush (fold_left step ws st))
    /\ (length (flush (fold_left step ws st))
        <= pending st + length (filter JS.truthy ws))%nat.
Proof.
  induction 1 as [|w ws Hw _ IH]; intros st Hls.
  - cbn [fold_left filter length]. rewrite flush_length. split; [| lia].
    unfold flush. destruct (JS.truthy (currentLine st)) eqn:T; [| exact Hls].
    apply Forall_app. split; [exact Hls | repeat constructor; exact T].
  - cbn [fold_left]. unfold wrapStep at 2 4. rewrite Hw.
    destruct (plainWord_count st w Hls) as [Hls' Hn].
    destruct (IH _ Hls') as [Hall Hlen]. split; [exact Hall |].
    change (w :: ws) with ([w] ++ ws)%list.
    rewrite filter_app, length_app. lia.
Qed.

End WrapShape.

Lemma flat_map_split_unbroken (ws : list string) :
  Forall (fun w => JS.includes LF w = false) ws ->
  flat_map (JS.split LF) ws = ws.
Proof.
  induction 1 as [|w ws Hw _ IH]; [reflexivity |].
  cbn [flat_map]. now rewrite IH, (split_no_separator _ _ Hw).
Qed.

(** X2. No wrapped line contains a line break, whatever the text: the
    text handed to [fillText] in the box is always a single line. *)
Theorem wrapText_lines_unbroken :
  forall (measureText : string -> Q) (maxWidth : Q) (castText : string),
    Forall (fun line => JS.includes LF line = false)
           (wrapText measureText maxWidth castText).
Proof.
  intros mt mw castText. unfold wrapText, wrapWords.
  apply wrapSteps_unbroken; [constructor | reflexivity].
Qed.

(** X3. For a text without forced breaks no wrapped line is empty, and
    there are at most as many wrapped lines as the text has non-empty
    words. *)
Theorem wrapText_no_empty_line :
  forall (measureText : string -> Q) (maxWidth : Q) (castText : string),
    JS.includes LF castText = false ->
    Forall (fun line => line <> "") (wrapText measureText maxWidth castText)
    /\ (length (wrapText measureText maxWidth castText)
        <= length (textPieces castText))%nat.
Proof.
  intros mt mw castText Hlf.
  pose proof (split_pieces_without LF SPACE castText Hlf) as Hws.
  destruct (plainWords_count mt mw _ Hws (mkWrap [] "") ltac:(constructor))
    as [Hall Hlen].
  split.
  - eapply Forall_impl; [| exact Hall].
    intros l Hl. now apply truthy_true_iff.
  - unfold textPieces. rewrite (flat_map_split_unbroken _ Hws). exact Hlen.
Qed.

Lemma wrapText_no_empty_line_witness :
  JS.includes LF "gm   frens, wagmi " = false
  /\ wrapText (fixedPitch 18 "36px sans-serif") (inject_Z 100) "gm   frens, wagmi "
     = ["gm  "; "frens,"; "wagmi"]
  /\ (length (wrapText (fixedPitch 18 "36px sans-serif") (inject_Z 100)
                "gm   frens, wagmi ")
      <= length (textPieces "gm   frens, wagmi "))%nat.
Proof.
  assert (JS.includes LF "gm   frens, wagmi " = false) as H by reflexivity.
  split; [exact H |]. split; [vm_compute; reflexivity |].
  exact (proj2 (wrapText_no_empty_line (fixedPitch 18 "36px sans-serif")
                  (inject_Z 100) _ H)).
Defined.

(** ** The calls of each block of the render *)

Lemma appends_emit (op : CanvasOp) :
  appends (emit op) (fun f => f) [op].
Proof. intro c. reflexivity. Qed.

Lemma appends_setFont (f : string) :
  appends (setFont f) (fun _ => f) [SetFont f].
Proof. intro c. reflexivity. Qed.

Lemma appends_ret : appends (ret tt) (fun f => f) [].
Proof. intro c. unfold ret. rewrite app_nil_r. now destruct c. Qed.

Lemma appends_bind (m k : Draw unit) (f g : string -> string)
      (l l' : list CanvasOp) :
  appends m f l -> appends k g l' ->
  appends (bind m (fun _ => k)) (fun x => g (f x)) (l ++ l')%list.
Proof.
  intros Hm Hk c. unfold bind. rewrite Hm, Hk. cbn [font ops].
  now rewrite app_assoc.
Qed.

Lemma appends_calls (m : Draw unit) (f : string -> string) (l : list CanvasOp) :
  appends m f l ->
  forall c, m c = Some (tt, mkCanvas (f (font c)) (ops c ++ callsOf m)%list).
Proof.
  intros Hm c. unfold callsOf. rewrite (Hm createCanvas), (Hm c). reflexivity.
Qed.

Ltac appends_chain :=
  repeat first
    [ eapply appends_bind
    | apply appends_emit
    | apply appends_setFont
    | apply appends_ret ].

Lemma appends_calls_font (m : Draw unit) (c : Canvas) (font' : string) :
  (exists f l, appends m f l /\ f (font c) = font') ->
  m c = Some (tt, mkCanvas font' (ops c ++ callsOf m)%list).
Proof.
  intros [f [l [H E]]]. rewrite (appends_calls _ _ _ H c), E. reflexivity.
Qed.

Lemma drawHeader_calls (tokenName : string) (c : Canvas) :
  drawHeader tokenName c
  = Some (tt, mkCanvas "bold 72px sans-serif"
                (ops c ++ callsOf (drawHeader tokenName))%list).
Proof.
  apply appends_calls_font. eexists. eexists. split.
  - unfold drawHeader. appends_chain.
  - reflexivity.
Qed.

Lemma measured_bind (measure : string -> string -> Q) (s : string)
      (k : Q -> Draw unit) (f g : string -> string) (l : list CanvasOp) :
  (forall c, font c = f (font c) -> appends (k (measure (font c) s)) g l) ->
  (forall x, f (f x) = f x) ->
  forall m l0, appends m f l0 ->
  appends (bind m (fun _ => bind (measureTextM measure s) k))
          (fun x => g (f x)) (l0 ++ l)%list.
Proof.
  intros Hk Hf m l0 Hm c. unfold bind at 1. rewrite Hm.
  unfold bind, measureTextM, withFont. cbn [font].
  rewrite (Hk (mkCanvas (f (font c)) (ops c ++ l0)%list)) by (cbn [font]; now rewrite Hf).
  cbn [font ops]. now rewrite app_assoc.
Qed.

Lemma drawAuthor_calls (measure : string -> string -> Q) (a : Author) (c : Canvas) :
  drawAuthor measure a c
  = Some (tt, mkCanvas (authorFont measure a)
                (ops c ++ callsOf (drawAuthor measure a))%list).
Proof.
  apply appends_calls_font. unfold drawAuthor, authorFont.
  destruct (display_name a) as [name|]; [destruct (JS.truthy name) |].
  - destruct (JS.gt (measure "bold 44px sans-serif" name) (inject_Z (width - 240)))
      eqn:G.
    + eexists. eexists. split.
      * eapply appends_bind; [apply appends_emit |].
        eapply appends_bind; [apply appends_setFont |].
        eapply appends_bind; [apply appends_emit |].
        eapply appends_bind; [apply appends_emit |].
        eapply appends_bind; [apply appends_emit |].
        eapply (measured_bind measure name _ (fun _ => "bold 44px sans-serif"));
          [| reflexivity | apply appends_setFont].
        intros c0 E. rewrite E, G. appends_chain.
      * reflexivity.
    + eexists. eexists. split.
      * eapply appends_bind; [apply appends_emit |].
        eapply appends_bind; [apply appends_setFont |].
        eapply appends_bind; [apply appends_emit |].
        eapply appends_bind; [apply appends_emit |].
        eapply appends_bind; [apply appends_emit |].
        eapply (measured_bind measure name _ (fun _ => "bold 44px sans-serif"));
          [| reflexivity | apply appends_setFont].
        intros c0 E. rewrite E, G. appends_chain.
      * reflexivity.
  - eexists. eexists. split; [appends_chain | reflexivity].
  - eexists. eexists. split; [appends_chain | reflexivity].
Qed.

Lemma drawTextBox_calls (boxHeight : Z) (c : Canvas) :
  drawTextBox boxHeight c
  = Some (tt, mkCanvas (font c) (ops c ++ callsOf (drawTextBox boxHeight))%list).
Proof.
  apply appends_calls_font. eexists. eexists. split.
  - unfold drawTextBox. appends_chain.
  - reflexivity.
Qed.

Lemma drawToken_calls (tokenName : string) (boxHeight : Z) (c : Canvas) :
  drawToken tokenName boxHeight c
  = Some (tt, mkCanvas "bold 120px sans-serif"
                (ops c ++ callsOf (drawToken tokenName boxHeight))%list).
Proof.
  apply appends_calls_font. eexists. eexists. split.
  - unfold drawToken. appends_chain.
  - reflexivity.
Qed.

(** The render: the calls before the lines of the text box, the lines,
    the token and the footer. *)
Lemma renderCanvas_shape (measure : string -> string -> Q) (fuel : nat)
      (now : string) (castInfo : Cast) (tokenName : string) :
  renderCanvas measure fuel now castInfo tokenName
  = match drawLines measure fuel (castLines measure castInfo)
            (mkCanvas "36px sans-serif"
               (callsOf (drawHeader tokenName)
                ++ callsOf (drawAuthor measure (author castInfo))
                ++ [SetFont "36px sans-serif"; SetFillStyle "#F8FAFC"]
                ++ callsOf (drawTextBox
                              (textBoxHeight (length (castLines measure castInfo)))))%list)
    with
    | Some (_, c) =>
        Some (ops c
              ++ callsOf (drawToken tokenName
                            (textBoxHeight (length (castLines measure castInfo))))
              ++ footerOps now)%list
    | None => None
    end.
Proof.
  rewrite renderCanvas_spec. unfold drawCard, bind at 1.
  rewrite drawHeader_calls. unfold bind at 1. rewrite drawAuthor_calls.
  unfold bind at 1. rewrite drawCastText_spec, drawTextBox_calls.
  cbn [font ops createCanvas app]. rewrite <- !app_assoc. cbn [app].
  destruct (drawLines _ _ _ _) as [[[] c]|]; [| reflexivity].
  rewrite drawToken_calls. cbn [ops]. now rewrite <- app_assoc.
Qed.

(** ** The lines drawn in the text box *)

Lemma plainTextOps_app (y : Z) (a b : list string) :
  plainTextOps y (a ++ b)
  = (plainTextOps y a
     ++ plainTextOps (y + lineHeight * Z.of_nat (length a)) b)%list.
Proof.
  revert y. induction a as [|l a IH]; intro y.
  - cbn [app plainTextOps length]. f_equal. lia.
  - cbn [app plainTextOps]. rewrite IH. f_equal. f_equal. f_equal.
    cbn [length]. lia.
Qed.

Lemma plainTextOps_bounds (ls : list string) :
  forall y,
    Forall (fun op =>
              exists t y', op = FillText t (120 + textBoxPadding) y'
                           /\ y <= y' <= y + lineHeight * (Z.of_nat (length ls) - 1))
           (plainTextOps y ls).
Proof.
  induction ls as [|l ls IH]; intro y; [constructor |].
  cbn [plainTextOps]. constructor.
  - exists l, y. split; [reflexivity |]. cbn [length]. unfold lineHeight. lia.
  - eapply Forall_impl; [| apply (IH (y + lineHeight))].
    intros op [t [y' [E Hy]]]. exists t, y'. split; [exact E |].
    cbn [length]. unfold lineHeight in *. lia.
Qed.

(** What the loop over the visible lines draws when it ends. *)
Lemma drawLines_shown (measure : string -> string -> Q) (fuel : nat)
      (wrapped : list string) (c c' : Canvas) :
  drawLines measure fuel wrapped c = Some (tt, c') ->
  exists shown,
    c' = drawn c (SetFillStyle "#F8FAFC" :: SetTextAlign "left"
                    :: plainTextOps 404 shown)
    /\ Z.of_nat (length shown) = maxVisibleLines (length wrapped)
    /\ (truncated wrapped = false -> shown = wrapped)
    /\ (truncated wrapped = true ->
        exists t,
          shown = (firstn 6 wrapped ++ [(t ++ "...")%string])%list
          /\ isPrefix t (nth 6 wrapped "")
          /\ fits (measure (font c)) (inject_Z maxWidth) t).
Proof.
  intro H. destruct (truncated wrapped) eqn:T.
  - apply truncated_true_iff in T.
    rewrite drawLines_truncated, drawEllipsisLine_spec in H by exact T.
    cbn [font drawn] in H.
    destruct (fitEllipsis (measure (font c)) (inject_Z maxWidth) fuel
                (nth 6 wrapped "")) as [t|] eqn:F; [| discriminate].
    injection H as <-.
    destruct (fit_sound _ _ _ _ _ F) as [Hp Hf].
    exists (firstn 6 wrapped ++ [(t ++ "...")%string])%list.
    split; [| split; [| split; [discriminate | intros _; now exists t]]].
    + rewrite drawn_drawn, plainTextOps_app. cbn [app plainTextOps].
      rewrite length_firstn.
      rewrite maxVisibleLines_closed in T.
      replace (Nat.min 6 (length wrapped)) with 6%nat by lia.
      reflexivity.
    + rewrite length_app, length_firstn, maxVisibleLines_closed in *.
      cbn [length]. lia.
  - apply truncated_false_iff in T.
    rewrite drawLines_plain in H by exact T. injection H as <-.
    exists wrapped. split; [reflexivity |].
    split; [| split; [reflexivity | discriminate]].
    rewrite maxVisibleLines_closed in *. lia.
Qed.

(** X4. When the loop over the visible lines ends, it has drawn exactly
    [maxVisibleLines] lines, all at abscissa 160, and every baseline lies
    inside the text box, at least 64 pixels from its top and bottom
    edges. *)
Theorem box_lines_inside_box :
  forall (measure : string -> string -> Q) (fuel : nat)
         (wrapped : list string) (c c' : Canvas),
    drawLines measure fuel wrapped c = Some (tt, c') ->
    exists shown,
      ops c' = (ops c ++ SetFillStyle "#F8FAFC" :: SetTextAlign "left"
                  :: plainTextOps 404 shown)%list
      /\ Z.of_nat (length shown) = maxVisibleLines (length wrapped)
      /\ Forall (fun op =>
                   exists t y,
                     op = FillText t (120 + textBoxPadding) y
                     /\ textBoxY + 64 <= y
                        <= textBoxY + textBoxHeight (length wrapped) - 64)
                (plainTextOps 404 shown).
Proof.
  intros measure fuel wrapped c c' H.
  destruct (drawLines_shown _ _ _ _ _ H) as [shown [-> [Hlen _]]].
  exists shown. split; [reflexivity |]. split; [exact Hlen |].
  eapply Forall_impl; [| apply plainTextOps_bounds].
  intros op [t [y [E Hy]]]. exists t, y. split; [exact E |].
  rewrite Hlen, maxVisibleLines_closed in Hy.
  unfold textBoxY, textBoxHeight, textHeight, lineHeight, textBoxPadding,
    maxTextBoxHeight in *.
  lia.
Qed.

Lemma box_lines_inside_box_witness :
  exists c',
    drawLines (fixedPitch 34) 4 (castLines (fixedPitch 34) cast300) createCanvas
    = Some (tt, c')
    /\ exists shown,
        Z.of_nat (length shown) = 7
        /\ Forall (fun op =>
                     exists t y, op = FillText t 160 y /\ 404 <= y <= 736)
                  (plainTextOps 404 shown).
Proof.
  assert (exists c',
             drawLines (fixedPitch 34) 4 (castLines (fixedPitch 34) cast300)
               createCanvas = Some (tt, c')) as [c' H]
    by (vm_compute; eexists; reflexivity).
  exists c'. split; [exact H |].
  destruct (box_lines_inside_box _ _ _ _ _ H) as [shown [_ [Hlen Hall]]].
  exists shown. split; [exact Hlen | exact Hall].
Defined.

(** ** The texts of the card *)











(** ** When the render ends *)

(** X6. The render returns exactly when nothing is truncated or some
    initial segment of the seventh wrapped line, followed by "...", fits
    within 920 pixels in the 36-pixel font; one unit of fuel per code unit
    of that line, and one more, are then enough. Otherwise it never
    returns. *)
Theorem render_returns_iff :
  forall (measure : string -> string -> Q) (now : string)
         (castInfo : Cast) (tokenName : string),
    ((exists fuel calls,
         renderCanvas measure fuel now castInfo tokenName = Some calls)
     <->
     (truncated (castLines measure castInfo) = false
      \/ exists p,
          isPrefix p (nth 6 (castLines measure castInfo) "")
          /\ fits (measure "36px sans-serif") (inject_Z maxWidth) p))
    /\
    ((exists fuel calls,
         renderCanvas measure fuel now castInfo tokenName = Some calls) ->
     exists calls,
       renderCanvas measure
         (S (String.length (nth 6 (castLines measure castInfo) "")))
         now castInfo tokenName
       = Some calls).
Proof.
  intros measure now castInfo tokenName.
  assert ((exists fuel calls,
              renderCanvas measure fuel now castInfo tokenName = Some calls)
          -> truncated (castLines measure castInfo) = false
             \/ exists p,
                 isPrefix p (nth 6 (castLines measure castInfo) "")
                 /\ fits (measure "36px sans-serif") (inject_Z maxWidth) p) as Hto.
  { intros [fuel [calls H]]. rewrite renderCanvas_shape in H.
    destruct (drawLines _ _ _ _) as [[[] c2]|] eqn:D; [| discriminate].
    destruct (drawLines_shown _ _ _ _ _ D) as [shown [_ [_ [_ Htrunc]]]].
    destruct (truncated (castLines measure castInfo)); [right | now left].
    destruct (Htrunc eq_refl) as [t [_ [Hp Hf]]]. now exists t. }
  assert (truncated (castLines measure castInfo) = false
          \/ (exists p,
                 isPrefix p (nth 6 (castLines measure castInfo) "")
                 /\ fits (measure "36px sans-serif") (inject_Z maxWidth) p)
          -> exists calls,
              renderCanvas measure
                (S (String.length (nth 6 (castLines measure castInfo) "")))
                now castInfo tokenName
              = Some calls) as Hfrom.
  { intro H. rewrite renderCanvas_shape.
    destruct (truncated (castLines measure castInfo)) eqn:T.
    - destruct H as [H | H]; [discriminate |].
      apply truncated_true_iff in T.
      rewrite drawLines_truncated, drawEllipsisLine_spec by exact T.
      cbn [font drawn].
      destruct (fit_complete (measure "36px sans-serif") (inject_Z maxWidth) _
                  (nth 6 (castLines measure castInfo) "") (le_n _) H) as [t F].
      rewrite F. eauto.
    - apply truncated_false_iff in T.
      rewrite drawLines_plain by exact T. eauto. }
  split; [split |].
  - exact Hto.
  - intro H. destruct (Hfrom H) as [calls E]. eauto.
  - intro H. apply Hfrom, Hto, H.
Qed.

(** ** Geometry of the card *)

Lemma textBoxHeight_bounds (lineCount : nat) :
  80 <= textBoxHeight lineCount <= 460.
Proof.
  unfold textBoxHeight, textHeight, lineHeight, textBoxPadding, maxTextBoxHeight.
  lia.
Qed.

Ltac on_canvas :=
  repeat (constructor;
          [ first [ exact I
                  | cbv [inCanvas onCanvas width height textBoxY
                           cornerRadius textBoxPadding] in *;
                    try change (1200 / 2) with 600; lia ] | ]);
  try constructor.

Lemma header_inCanvas (tokenName : string) :
  Forall inCanvas (callsOf (drawHeader tokenName)).
Proof. on_canvas. Qed.

Lemma author_inCanvas (measure : string -> string -> Q) (a : Author) :
  Forall inCanvas (callsOf (drawAuthor measure a)).
Proof.
  unfold callsOf, drawAuthor, measureTextM, withFont.
  destruct (display_name a) as [name|]; [destruct (JS.truthy name) |];
    [| on_canvas | on_canvas].
  unfold bind, emit, setFont, ret, createCanvas. cbn [font ops].
  destruct (JS.gt _ _); on_canvas.
Qed.

Lemma textBox_inCanvas (boxHeight : Z) :
  80 <= boxHeight <= 460 -> Forall inCanvas (callsOf (drawTextBox boxHeight)).
Proof. intro H. on_canvas. Qed.

Lemma token_inCanvas (tokenName : string) (boxHeight : Z) :
  80 <= boxHeight <= 460 ->
  Forall inCanvas (callsOf (drawToken tokenName boxHeight)).
Proof. intro H. on_canvas. Qed.

Lemma footer_inCanvas (now : string) : Forall inCanvas (footerOps now).
Proof. on_canvas. Qed.

Lemma boxLines_inCanvas (shown : list string) :
  Z.of_nat (length shown) <= 7 -> Forall inCanvas (plainTextOps 404 shown).
Proof.
  intro H. eapply Forall_impl; [| apply plainTextOps_bounds].
  intros op [t [y [-> Hy]]].
  cbv [inCanvas onCanvas width height textBoxPadding lineHeight] in *. lia.
Qed.

(** X7. Nothing is anchored outside the canvas: in a finished card every
    text anchor, every vertex and control point of a path, the background
    rectangle and the whole token circle lie within the 1200 by 1200
    canvas. *)
Theorem card_within_canvas :
  forall (measure : string -> string -> Q) (fuel : nat) (now : string)
         (castInfo : Cast) (tokenName : string) (calls : list CanvasOp),
    renderCanvas measure fuel now castInfo tokenName = Some calls ->
    Forall inCanvas calls.
Proof.
  intros measure fuel now castInfo tokenName calls H.
  rewrite renderCanvas_shape in H.
  pose proof (textBoxHeight_bounds (length (castLines measure castInfo))) as Hh.
  pose proof (header_inCanvas tokenName) as Hhead.
  pose proof (author_inCanvas measure (author castInfo)) as Hauth.
  pose proof (textBox_inCanvas _ Hh) as Hbox.
  pose proof (token_inCanvas tokenName _ Hh) as Htok.
  remember (callsOf (drawHeader tokenName)) as headerCalls.
  remember (callsOf (drawAuthor measure (author castInfo))) as authorCalls.
  remember (callsOf (drawTextBox
                       (textBoxHeight (length (castLines measure castInfo)))))
    as boxCalls.
  remember (callsOf (drawToken tokenName
                       (textBoxHeight (length (castLines measure castInfo)))))
    as tokenCalls.
  destruct (drawLines _ _ _ _) as [[[] c2]|] eqn:D; [| discriminate].
  injection H as <-.
  destruct (drawLines_shown _ _ _ _ _ D) as [shown [-> [Hlen _]]].
  unfold drawn. cbn [ops font].
  repeat (apply Forall_app; split); try assumption.
  - repeat constructor.
  - constructor; [exact I |]. constructor; [exact I |].
    apply boxLines_inCanvas. rewrite Hlen, maxVisibleLines_closed. lia.
  - apply footer_inCanvas.
Qed.

Lemma card_within_canvas_witness :
  exists calls,
    renderCanvas (fixedPitch 34) 4 "2025-01-01T00:00:00.000Z" cast300 "MoonCat"
    = Some calls
    /\ Forall inCanvas calls.
Proof.
  assert (exists calls,
             renderCanvas (fixedPitch 34) 4 "2025-01-01T00:00:00.000Z"
               cast300 "MoonCat" = Some calls) as [calls H]
    by (vm_compute; eexists; reflexivity).
  exists calls. split; [exact H |].
  exact (card_within_canvas _ _ _ _ _ _ H).
Defined.





(** * Properties of the choice of the cast *)

(** ** Decimal numbers *)

Lemma string_of_uint_digits (d : Decimal.uint) :
  everyChar Regex.isDigit (DecimalString.NilEmpty.string_of_uint d) = true.
Proof. induction d; cbn; auto. Qed.

Lemma decimal_digits (n : nat) :
  everyChar Regex.isDigit (Select.decimal n) = true /\ Select.decimal n <> "".
Proof.
  split; [apply string_of_uint_digits |].
  unfold Select.decimal.
  assert (Nat.to_uint n <> Decimal.Nil) as Hne.
  { rewrite <- (DecimalNat.Unsigned.of_to n) at 1.
    rewrite DecimalNat.Unsigned.to_of. apply DecimalFacts.unorm_nonnil. }
  destruct (Nat.to_uint n); [contradiction | | | | | | | | | |]; discriminate.
Qed.

Lemma parseInt_decimal (n : nat) : Select.parseInt (Select.decimal n) = Z.of_nat n.
Proof.
  unfold Select.parseInt, Select.decimal.
  rewrite DecimalString.NilEmpty.usu, DecimalNat.Unsigned.of_to. reflexivity.
Qed.


(** ** The matcher *)

Lemma greedy_to_end (ok : ascii -> bool) (run post : string) :
  everyChar ok run = true -> headIs ok post = false ->
  Regex.greedy ok (Regex.matchAtoms []) (run ++ post) = Some (run, []).
Proof.
  intros Hrun Hpost. induction run as [|c run IH].
  - cbn [append]. destruct post as [|c post]; [reflexivity |].
    cbn [headIs] in Hpost. cbn [Regex.greedy]. rewrite Hpost. reflexivity.
  - cbn [everyChar] in Hrun. apply andb_prop in Hrun as [Hc Hrun].
    cbn [append Regex.greedy]. rewrite Hc, (IH Hrun). reflexivity.
Qed.

Lemma greedy_sound (ok : ascii -> bool) (k : string -> option (list string)) :
  forall s m ms,
    Regex.greedy ok k s = Some (m, ms) ->
    everyChar ok m = true /\ exists post, s = m ++ post /\ k post = Some ms.
Proof.
  induction s as [|c s IH]; intros m ms H; cbn [Regex.greedy] in H.
  - destruct (k "") as [r|] eqn:K; [| discriminate]. injection H as <- <-.
    split; [reflexivity |]. now exists "".
  - assert (option_map (pair "") (k (String c s)) = Some (m, ms) ->
            everyChar ok m = true
            /\ exists post, String c s = m ++ post /\ k post = Some ms) as Hstop.
    { destruct (k (String c s)) as [r|] eqn:K; [| discriminate].
      intro E. injection E as <- <-. split; [reflexivity |].
      now exists (String c s). }
    destruct (ok c) eqn:Hc; [| now apply Hstop].
    destruct (Regex.greedy ok k s) as [[m' ms']|] eqn:G; [| now apply Hstop].
    injection H as <- <-. destruct (IH _ _ eq_refl) as [Hm [post [-> Hk]]].
    split; [cbn [everyChar]; now rewrite Hc, Hm |].
    now exists post.
Qed.


(** What matched each atom is accepted by the atom. *)
Lemma matchAtoms_accepted (atoms : list Regex.Atom) :
  forall s r,
    Regex.matchAtoms atoms s = Some r ->
    Forall2 (fun a m => everyChar (Regex.accepts a) m = true) atoms r.
Proof.
  induction atoms as [|a atoms IH]; intros s r H; cbn [Regex.matchAtoms] in H.
  - injection H as <-. constructor.
  - destruct (Regex.quantifier a).
    + destruct s as [|c s]; [discriminate |].
      destruct (Regex.accepts a c) eqn:Hc; [| discriminate].
      destruct (Regex.matchAtoms atoms s) as [r'|] eqn:M; [| discriminate].
      injection H as <-. constructor; [| now apply (IH s)].
      cbn [everyChar]. now rewrite Hc.
    + destruct (Regex.greedy _ _ s) as [[m ms]|] eqn:G; [| discriminate].
      injection H as <-. cbn [fst snd].
      destruct (greedy_sound _ _ _ _ _ G) as [Hm [post [_ Hk]]].
      constructor; [exact Hm | now apply (IH post)].
    + destruct s as [|c s]; [discriminate |].
      destruct (Regex.accepts a c) eqn:Hc; [| discriminate].
      destruct (Regex.greedy _ _ s) as [[m ms]|] eqn:G; [| discriminate].
      injection H as <-. cbn [fst snd].
      destruct (greedy_sound _ _ _ _ _ G) as [Hm [post [_ Hk]]].
      constructor; [| now apply (IH post)].
      cbn [everyChar]. now rewrite Hc, Hm.
Qed.

Lemma search_matches (atoms : list Regex.Atom) :
  forall s r,
    Regex.search atoms s = Some r ->
    exists pre rest, s = pre ++ rest /\ Regex.matchAtoms atoms rest = Some r.
Proof.
  induction s as [|c s IH]; intros r H; cbn [Regex.search] in H.
  - destruct (Regex.matchAtoms atoms "") eqn:M; [| discriminate].
    injection H as <-. now exists "", "".
  - destruct (Regex.matchAtoms atoms (String c s)) eqn:M.
    + injection H as <-. now exists "", (String c s).
    + destruct (IH _ H) as [pre [rest [-> Hm]]].
      now exists (String c pre), rest.
Qed.

Lemma search_found (atoms : list Regex.Atom) (s : string) (r : list string) :
  Regex.matchAtoms atoms s = Some r -> Regex.search atoms s = Some r.
Proof. intro H. destruct s; cbn [Regex.search]; now rewrite H. Qed.

Lemma sameLetter_refl (c : ascii) : Regex.sameLetter c c = true.
Proof. apply Ascii.eqb_refl. Qed.

(** A literal matches itself, then the rest of the expression goes on. *)
Lemma literal_matches (w : string) (atoms : list Regex.Atom) (s : string) :
  Regex.matchAtoms (Regex.literal w ++ atoms) (w ++ s)
  = option_map (app (letters w)) (Regex.matchAtoms atoms s).
Proof.
  induction w as [|c w IH].
  - cbn [Regex.literal app append letters].
    now destruct (Regex.matchAtoms atoms s).
  - cbn [Regex.literal app append letters Regex.matchAtoms
           Regex.quantifier Regex.accepts].
    rewrite sameLetter_refl, IH.
    now destruct (Regex.matchAtoms atoms s).
Qed.


(** ** The number of the cast *)

Lemma digits_match (digits post : string) :
  digits <> "" -> everyChar Regex.isDigit digits = true ->
  headIs Regex.isDigit post = false ->
  Regex.matchAtoms [Regex.mkAtom Regex.isDigit Regex.OneOrMore] (digits ++ post)
  = Some [digits].
Proof.
  intros Hne Hd Hp. destruct digits as [|c ds]; [contradiction |].
  cbn [everyChar] in Hd. apply andb_prop in Hd as [Hc Hds].
  change (Regex.matchAtoms [Regex.mkAtom Regex.isDigit Regex.OneOrMore]
            (String c ds ++ post))
    with (if Regex.isDigit c
          then option_map (fun r => String c (fst r) :: snd r)
                 (Regex.greedy Regex.isDigit (Regex.matchAtoms []) (ds ++ post))
          else None).
  rewrite Hc, (greedy_to_end _ _ _ Hds Hp). reflexivity.
Qed.

(** The number read from an answer that starts with a label. *)
Lemma castNumber_label (k : nat) (post : string) :
  headIs Regex.isDigit post = false ->
  Select.castNumber (Some ("Cast " ++ Select.decimal k ++ post)) = Z.of_nat k - 1.
Proof.
  intro Hp. destruct (decimal_digits k) as [Hd Hne].
  unfold Select.castNumber, Select.matchResponse, Regex.castPattern.
  rewrite (search_found _ _ (letters "Cast " ++ [Select.decimal k])%list).
  - unfold Regex.group1. rewrite last_last, parseInt_decimal. reflexivity.
  - rewrite literal_matches, (digits_match _ _ Hne Hd Hp). reflexivity.
Qed.

Lemma castTextsFrom_nth (casts : list Cast) :
  forall index i,
    nth_error (Select.castTextsFrom index casts) i
    = option_map (fun c => "Cast " ++ Select.decimal (index + i + 1) ++ ": " ++ text c)
                 (nth_error casts i).
Proof.
  induction casts as [|c casts IH]; intros index i.
  - now destruct i.
  - destruct i as [|i]; cbn [Select.castTextsFrom nth_error option_map].
    + now rewrite Nat.add_0_r.
    + rewrite IH. now replace (S index + i + 1)%nat with (index + S i + 1)%nat by lia.
Qed.

(** X9. The labels of the prompt and the parser agree: an answer that
    starts with the entry listed at position [i] of the prompt (the label
    "Cast i+1: " followed by the text of the cast) is read as number [i]
    and selects the very cast that entry lists. Only the first ten casts
    are listed. *)
Theorem listed_cast_round_trip :
  forall (casts : list Cast) (i : nat) (entry rest : string),
    nth_error (Select.castTexts casts) i = Some entry ->
    exists c,
      (i < 10)%nat
      /\ nth_error casts i = Some c
      /\ entry = "Cast " ++ Select.decimal (i + 1) ++ ": " ++ text c
      /\ Select.castNumber (Some (entry ++ rest)) = Z.of_nat i
      /\ Select.selectedCast casts (Some (entry ++ rest)) = Some c.
Proof.
  intros casts i entry rest H.
  unfold Select.castTexts, JS.slice0 in H. cbn [Z.ltb Z.compare Z.to_nat] in H.
  rewrite castTextsFrom_nth in H. cbn [Nat.add] in H.
  destruct (nth_error (firstn (Pos.to_nat 10) casts) i) as [c|] eqn:E;
    [| discriminate].
  injection H as <-.
  assert (i < 10)%nat as Hi.
  { assert (nth_error (firstn (Pos.to_nat 10) casts) i <> None) as Hsome
      by (rewrite E; discriminate).
    apply nth_error_Some in Hsome. rewrite length_firstn in Hsome.
    change (Pos.to_nat 10) with 10%nat in Hsome. lia. }
  rewrite nth_error_firstn in E.
  change (Pos.to_nat 10) with 10%nat in E.
  destruct (Nat.ltb_spec i 10) as [_ | Hge]; [| lia].
  assert (Select.castNumber
            (Some (("Cast " ++ Select.decimal (i + 1) ++ ": " ++ text c) ++ rest))
          = Z.of_nat i) as Hn.
  { replace (("Cast " ++ Select.decimal (i + 1) ++ ": " ++ text c) ++ rest)
      with ("Cast " ++ Select.decimal (i + 1) ++ (": " ++ text c ++ rest)).
    - rewrite castNumber_label by reflexivity. lia.
    - now rewrite !append_assoc. }
  exists c. repeat split; try assumption.
  change (Select.selectedCast casts
            (Some (("Cast " ++ Select.decimal (i + 1) ++ ": " ++ text c) ++ rest))
          = Some c).
  unfold Select.selectedCast. rewrite Hn.
  destruct (Z.ltb_spec (Z.of_nat i) 0) as [Hneg | _]; [lia |].
  now rewrite Nat2Z.id.
Qed.

Lemma listed_cast_round_trip_witness :
  nth_error (Select.castTexts [cast300; shortCast; emptyCast]) 1
  = Some "Cast 2: gm frens"
  /\ Select.selectedCast [cast300; shortCast; emptyCast]
       (Some ("Cast 2: gm frens" ++ " is my choice."))
     = Some shortCast.
Proof.
  assert (nth_error (Select.castTexts [cast300; shortCast; emptyCast]) 1
          = Some "Cast 2: gm frens") as H by reflexivity.
  split; [exact H |].
  destruct (listed_cast_round_trip _ _ _ " is my choice." H)
    as [c [_ [Hc [_ [_ Hsel]]]]].
  rewrite Hsel. exact (eq_sym Hc).
Defined.



(** ** The name of the token and the description of the image *)

Lemma trimStart_head (s : string) :
  headIs Select.isSpace (Select.trimStart s) = false.
Proof.
  induction s as [|c s IH]; [reflexivity |].
  cbn [Select.trimStart]. destruct (Select.isSpace c) eqn:E; [exact IH |].
  cbn [headIs]. exact E.
Qed.

Lemma trimStart_id (s : string) :
  headIs Select.isSpace s = false -> Select.trimStart s = s.
Proof.
  destruct s as [|c s]; [reflexivity |].
  cbn [headIs Select.trimStart]. now intros ->.
Qed.

Lemma trimEnd_cons (c : ascii) (rest : string) :
  Select.trimEnd (String c rest)
  = match Select.trimEnd rest with
    | EmptyString => if Select.isSpace c then "" else String c ""
    | String _ _ as kept => String c kept
    end.
Proof. reflexivity. Qed.

Lemma trimEnd_head (s : string) :
  headIs Select.isSpace s = false -> headIs Select.isSpace (Select.trimEnd s) = false.
Proof.
  destruct s as [|c s]; [reflexivity |].
  cbn [headIs]. intro E. rewrite trimEnd_cons.
  destruct (Select.trimEnd s); [rewrite E |]; exact E.
Qed.

Lemma trimEnd_idem (s : string) :
  Select.trimEnd (Select.trimEnd s) = Select.trimEnd s.
Proof.
  induction s as [|c s IH]; [reflexivity |].
  rewrite trimEnd_cons. destruct (Select.trimEnd s) as [|d t] eqn:E.
  - destruct (Select.isSpace c) eqn:Ec; [reflexivity |].
    rewrite trimEnd_cons. cbn [Select.trimEnd]. now rewrite Ec.
  - rewrite trimEnd_cons, IH. reflexivity.
Qed.

Lemma trim_idem (s : string) : Select.trim (Select.trim s) = Select.trim s.
Proof.
  unfold Select.trim.
  rewrite (trimStart_id (Select.trimEnd (Select.trimStart s))).
  - apply trimEnd_idem.
  - apply trimEnd_head, trimStart_head.
Qed.

Lemma everyChar_trimStart (ok : ascii -> bool) (s : string) :
  everyChar ok s = true -> everyChar ok (Select.trimStart s) = true.
Proof.
  induction s as [|c s IH]; [reflexivity |].
  intro H. cbn [Select.trimStart]. destruct (Select.isSpace c); [| exact H].
  cbn [everyChar] in H. apply andb_prop in H as [_ H]. auto.
Qed.

Lemma everyChar_trimEnd (ok : ascii -> bool) (s : string) :
  everyChar ok s = true -> everyChar ok (Select.trimEnd s) = true.
Proof.
  induction s as [|c s IH]; [reflexivity |].
  intro H. cbn [everyChar] in H. apply andb_prop in H as [Hc H].
  rewrite trimEnd_cons. specialize (IH H).
  destruct (Select.trimEnd s) as [|d t].
  - destruct (Select.isSpace c); [reflexivity |].
    cbn [everyChar]. now rewrite Hc.
  - cbn [everyChar] in *. now rewrite Hc, IH.
Qed.

Lemma everyChar_trim (ok : ascii -> bool) (s : string) :
  everyChar ok s = true -> everyChar ok (Select.trim s) = true.
Proof. intro H. now apply everyChar_trimEnd, everyChar_trimStart. Qed.

Lemma Forall2_last_atom (P : Regex.Atom -> string -> Prop)
      (atoms : list Regex.Atom) (a : Regex.Atom) :
  forall r, Forall2 P (atoms ++ [a]) r -> P a (last r "").
Proof.
  induction atoms as [|b atoms IH]; intros r H.
  - inversion H as [|? ? ? ? Hp Hrest]; subst. inversion Hrest; subst. exact Hp.
  - inversion H as [|? m ? ms Hp Hrest]; subst.
    specialize (IH _ Hrest).
    destruct ms as [|m' ms]; [| exact IH].
    apply Forall2_length in Hrest. rewrite length_app in Hrest.
    cbn in Hrest. lia.
Qed.

(** The group of a field has neither a line break nor a full stop. *)
Lemma field_group_plain (label s : string) (m : list string) :
  Regex.search (Regex.fieldPattern label) s = Some m ->
  everyChar plainChar (Regex.group1 m) = true.
Proof.
  intro H. destruct (search_matches _ _ _ H) as [pre [rest [_ Hm]]].
  apply matchAtoms_accepted in Hm. unfold Regex.fieldPattern in Hm.
  change [Regex.mkAtom (fun c => negb (Ascii.eqb c Regex.COLON)) Regex.ZeroOrMore;
          Regex.mkAtom (fun c => Ascii.eqb c Regex.COLON) Regex.Once;
          Regex.mkAtom (fun c => negb (Regex.isWord c)) Regex.ZeroOrMore;
          Regex.mkAtom (fun c => negb (Ascii.eqb c LF || Ascii.eqb c Regex.DOT))
            Regex.OneOrMore]
    with ([Regex.mkAtom (fun c => negb (Ascii.eqb c Regex.COLON)) Regex.ZeroOrMore;
           Regex.mkAtom (fun c => Ascii.eqb c Regex.COLON) Regex.Once;
           Regex.mkAtom (fun c => negb (Regex.isWord c)) Regex.ZeroOrMore]
          ++ [Regex.mkAtom plainChar Regex.OneOrMore])%list in Hm.
  rewrite app_assoc in Hm.
  exact (Forall2_last_atom _ _ _ _ Hm).
Qed.

(** X11. Whatever the model answers, the token name and the image
    description handed on contain neither a line break nor a full stop and
    have no white space at either end; without a "suggested name ...:"
    (or "image ...:") field in the answer they are the defaults. *)
Theorem parsed_fields_shape :
  forall response : option string,
    everyChar plainChar (Select.tokenName response) = true
    /\ Select.trim (Select.tokenName response) = Select.tokenName response
    /\ everyChar plainChar (Select.imageDescription response) = true
    /\ Select.trim (Select.imageDescription response)
       = Select.imageDescription response
    /\ (Select.matchResponse (Regex.fieldPattern "suggested name") response = None ->
        Select.tokenName response = "TrendToken")
    /\ (Select.matchResponse (Regex.fieldPattern "image") response = None ->
        Select.imageDescription response = "A trendy crypto token visualization").
Proof.
  intro response.
  unfold Select.tokenName, Select.imageDescription.
  split; [| split; [| split; [| split; [| split]]]].
  - destruct (Select.matchResponse _ response) as [m|] eqn:M; [| reflexivity].
    destruct response as [s|]; [| discriminate].
    apply everyChar_trim. exact (field_group_plain _ _ _ M).
  - destruct (Select.matchResponse _ response); [apply trim_idem | reflexivity].
  - destruct (Select.matchResponse (Regex.fieldPattern "image") response)
      as [m|] eqn:M; [| reflexivity].
    destruct response as [s|]; [| discriminate].
    apply everyChar_trim. exact (field_group_plain _ _ _ M).
  - destruct (Select.matchResponse (Regex.fieldPattern "image") response);
      [apply trim_idem | reflexivity].
  - now intros ->.
  - now intros ->.
Qed.

(** ** The symbol of the token *)

Lemma substring0_length (n : nat) (s : string) :
  (String.length (Select.substring0 n s) <= n)%nat.
Proof.
  revert s. induction n as [|n IH]; intro s; [cbn; lia |].
  destruct s as [|c s]; cbn [Select.substring0 String.length]; [lia |].
  specialize (IH s). lia.
Qed.

Lemma toUpperCase_length (s : string) :
  String.length (JS.toUpperCase s) = String.length s.
Proof. induction s as [|c s IH]; cbn; [reflexivity | now rewrite IH]. Qed.

(** X12. For a token name of ASCII code units, on which [toUpperCase]
    works code unit by code unit: the symbol under which the token is
    deployed has at most four code units, is empty only for the empty
    name, and begins with the glyph drawn in the token circle of the
    card. *)
Theorem symbol_begins_with_glyph :
  forall name : string,
    everyChar isAscii name = true ->
    (String.length (Select.tokenSymbol name) <= 4)%nat
    /\ (Select.tokenSymbol name = "" <-> name = "")
    /\ JS.substring01 (Select.tokenSymbol name)
       = JS.toUpperCase (JS.substring01 name).
Proof.
  intros name _. unfold Select.tokenSymbol. split; [| split].
  - rewrite toUpperCase_length. apply substring0_length.
  - destruct name; cbn; split; intro H; congruence.
  - destruct name; reflexivity.
Qed.

Lemma symbol_begins_with_glyph_witness :
  everyChar isAscii "mooncat" = true
  /\ Select.tokenSymbol "mooncat" = "MOON"
  /\ JS.substring01 (Select.tokenSymbol "mooncat")
     = JS.toUpperCase (JS.substring01 "mooncat").
Proof.
  assert (everyChar isAscii "mooncat" = true) as H by reflexivity.
  split; [exact H |]. split; [reflexivity |].
  exact (proj2 (proj2 (symbol_begins_with_glyph "mooncat" H))).
Defined.

(** * Lines are filled greedily *)

Section WrapTight.

Variable measureText : string -> Q.
Variable maxWidth : Q.

Local Abbreviation step := (wrapStep measureText maxWidth).
Local Abbreviation tight := (tightLines measureText maxWidth).

Lemma tight_snoc (ls : list string) (a b : string) :
  tight (ls ++ [a]) ->
  JS.gt (measureText (a ++ " " ++ hd "" (JS.split SPACE b))) maxWidth = true ->
  tight ((ls ++ [a]) ++ [b]).
Proof.
  intros Ht Hab. induction ls as [|l ls IH].
  - cbn. auto.
  - destruct ls as [|l' ls].
    + cbn in *. tauto.
    + cbn [app tightLines] in *. destruct Ht as [Hl Ht]. split; [exact Hl |].
      now apply IH.
Qed.

Lemma tight_last (ls : list string) (a a' : string) :
  tight (ls ++ [a]) ->
  hd "" (JS.split SPACE a') = hd "" (JS.split SPACE a) ->
  tight (ls ++ [a']).
Proof.
  intros Ht Hhd. induction ls as [|l ls IH]; [exact I |].
  destruct ls as [|l' ls].
  - cbn in *. rewrite Hhd. tauto.
  - cbn [app tightLines] in *. destruct Ht as [Hl Ht]. split; [exact Hl |].
    now apply IH.
Qed.

Lemma hd_split_joined (a b : string) :
  hd "" (JS.split SPACE (a ++ String SPACE b)) = hd "" (JS.split SPACE a).
Proof.
  rewrite split_joined. pose proof (split_not_nil SPACE a) as Hne.
  now destruct (JS.split SPACE a).
Qed.

(** The state of the loop on non-empty plain words: the accumulator is
    empty only before the first word. *)
Lemma plainWord_tight (st : WrapState) (word : string) :
  JS.truthy word = true ->
  JS.includes SPACE word = false ->
  tight (lines st ++ [currentLine st]) ->
  (currentLine st = "" -> lines st = []) ->
  tight (lines (plainWord measureText maxWidth st word)
         ++ [currentLine (plainWord measureText maxWidth st word)])
  /\ currentLine (plainWord measureText maxWidth st word) <> "".
Proof.
  intros Hw Hsp Ht Hinit. unfold plainWord.
  destruct (JS.truthy (currentLine st)) eqn:T.
  - destruct (JS.gt _ maxWidth) eqn:G; cbn [andb];
      unfold setCurrent, push; cbn [lines currentLine].
    + split; [| now apply truthy_true_iff].
      apply tight_snoc; [exact Ht |].
      now rewrite (split_no_separator _ _ Hsp).
    + split.
      * apply (tight_last _ (currentLine st)); [exact Ht |].
        apply hd_split_joined.
      * apply truthy_true_iff. rewrite truthy_append, T. reflexivity.
  - rewrite andb_false_r. unfold setCurrent. cbn [lines currentLine].
    apply truthy_false_iff in T. rewrite T, (Hinit T). cbn [append app].
    split; [exact I | now apply truthy_true_iff].
Qed.

Lemma plainWords_tight (ws : list string) :
  Forall (fun w => JS.truthy w = true /\ JS.includes SPACE w = false
                   /\ JS.includes LF w = false) ws ->
  forall st,
    tight (lines st ++ [currentLine st]) ->
    (currentLine st = "" -> lines st = []) ->
    tight (flush (fold_left step ws st)).
Proof.
  induction 1 as [|w ws [Hw [Hsp Hlf]] _ IH]; intros st Ht Hinit.
  - cbn [fold_left]. unfold flush.
    destruct (JS.truthy (currentLine st)) eqn:T; [exact Ht |].
    apply truthy_false_iff in T. now rewrite (Hinit T).
  - cbn [fold_left]. unfold wrapStep at 2. rewrite Hlf.
    destruct (plainWord_tight st w Hw Hsp Ht Hinit) as [Ht' Hne].
    apply IH; [exact Ht' | intro E; contradiction].
Qed.

End WrapTight.

(** X13. Lines are filled greedily. For a text without forced breaks
    whose words are separated by single spaces (no leading, trailing or
    doubled space), each wrapped line but the last was closed only because
    the first word of the following line, added after a space, made it
    wider than [maxWidth]. *)
Theorem wrapText_greedy :
  forall (measureText : string -> Q) (maxWidth : Q) (castText : string),
    JS.includes LF castText = false ->
    Forall (fun w => w <> "") (JS.split SPACE castText) ->
    tightLines measureText maxWidth (wrapText measureText maxWidth castText).
Proof.
  intros mt mw castText Hlf Hwords. unfold wrapText, wrapWords.
  apply plainWords_tight; [| exact I | reflexivity].
  pose proof (split_pieces_no_separator SPACE castText) as Hsp.
  pose proof (split_pieces_without LF SPACE castText Hlf) as Hlfs.
  rewrite Forall_forall in *. intros w Hin.
  split; [apply truthy_true_iff; auto | split; auto].
Qed.

Lemma wrapText_greedy_witness :
  JS.includes LF "aaaa bbbbbbbbbbbbbbb cc dd" = false
  /\ wrapText (fixedPitch 18 "36px sans-serif") (inject_Z 100)
       "aaaa bbbbbbbbbbbbbbb cc dd"
     = ["aaaa"; "bbbbbbbbbbbbbbb"; "cc dd"]
  /\ tightLines (fixedPitch 18 "36px sans-serif") (inject_Z 100)
       (wrapText (fixedPitch 18 "36px sans-serif") (inject_Z 100)
          "aaaa bbbbbbbbbbbbbbb cc dd").
Proof.
  assert (JS.includes LF "aaaa bbbbbbbbbbbbbbb cc dd" = false) as H1
    by reflexivity.
  assert (Forall (fun w => w <> "") (JS.split SPACE "aaaa bbbbbbbbbbbbbbb cc dd"))
    as H2.
  { change (JS.split SPACE "aaaa bbbbbbbbbbbbbbb cc dd")
      with ["aaaa"; "bbbbbbbbbbbbbbb"; "cc"; "dd"].
    repeat (constructor; [discriminate |]). constructor. }
  split; [exact H1 |]. split; [vm_compute; reflexivity |].
  exact (wrapText_greedy (fixedPitch 18 "36px sans-serif") (inject_Z 100) _ H1 H2).
Defined.

(** * Reading a field of the answer *)

Lemma matchAtoms_star (ok : ascii -> bool) (rest : list Regex.Atom) (s : string) :
  Regex.matchAtoms (Regex.mkAtom ok Regex.ZeroOrMore :: rest) s
  = option_map (fun r => fst r :: snd r) (Regex.greedy ok (Regex.matchAtoms rest) s).
Proof. reflexivity. Qed.

Lemma matchAtoms_once (ok : ascii -> bool) (rest : list Regex.Atom)
      (c : ascii) (s : string) :
  ok c = true ->
  Regex.matchAtoms (Regex.mkAtom ok Regex.Once :: rest) (String c s)
  = option_map (cons (String c "")) (Regex.matchAtoms rest s).
Proof.
  intro H. cbn [Regex.matchAtoms Regex.quantifier Regex.accepts]. now rewrite H.
Qed.

Lemma matchAtoms_plus (ok : ascii -> bool) (rest : list Regex.Atom)
      (c : ascii) (s : string) :
  ok c = true ->
  Regex.matchAtoms (Regex.mkAtom ok Regex.OneOrMore :: rest) (String c s)
  = option_map (fun r => String c (fst r) :: snd r)
               (Regex.greedy ok (Regex.matchAtoms rest) s).
Proof.
  intro H.
  change (Regex.matchAtoms (Regex.mkAtom ok Regex.OneOrMore :: rest) (String c s))
    with (if ok c
          then option_map (fun r => String c (fst r) :: snd r)
                 (Regex.greedy ok (Regex.matchAtoms rest) s)
          else None).
  now rewrite H.
Qed.

(** A run followed by something the repetition refuses and the rest of the
    expression accepts. *)
Lemma greedy_run (ok : ascii -> bool) (k : string -> option (list string))
      (run post : string) (ms : list string) :
  everyChar ok run = true -> headIs ok post = false -> k post = Some ms ->
  Regex.greedy ok k (run ++ post) = Some (run, ms).
Proof.
  intros Hrun Hpost Hk. induction run as [|c run IH].
  - cbn [append]. destruct post as [|c post]; cbn [Regex.greedy].
    + now rewrite Hk.
    + cbn [headIs] in Hpost. now rewrite Hpost, Hk.
  - cbn [everyChar] in Hrun. apply andb_prop in Hrun as [Hc Hrun].
    cbn [append Regex.greedy]. now rewrite Hc, (IH Hrun).
Qed.

Lemma literal_matches_case (w : string) (atoms : list Regex.Atom) :
  forall w' s,
    JS.toUpperCase w' = JS.toUpperCase w ->
    Regex.matchAtoms (Regex.literal w ++ atoms) (w' ++ s)
    = option_map (app (letters w')) (Regex.matchAtoms atoms s).
Proof.
  induction w as [|c w IH]; intros w' s H.
  - destruct w'; [| discriminate].
    cbn [Regex.literal app append letters].
    now destruct (Regex.matchAtoms atoms s).
  - destruct w' as [|c' w']; [discriminate |].
    cbn [JS.toUpperCase] in H. injection H as Hc Hw.
    cbn [Regex.literal app append letters].
    rewrite matchAtoms_once by (unfold Regex.sameLetter; rewrite Hc; apply Ascii.eqb_refl).
    rewrite (IH _ _ Hw). now destruct (Regex.matchAtoms atoms s).
Qed.

Lemma word_not_space (c : ascii) :
  Regex.isWord c = true -> Select.isSpace c = false.
Proof.
  destruct c as [[|] [|] [|] [|] [|] [|] [|] [|]]; vm_compute; intro H;
    try reflexivity; discriminate H.
Qed.

(** The match of a field at the start of an answer. *)
Lemma field_matches (label word gap sep value rest : string) :
  JS.toUpperCase word = JS.toUpperCase label ->
  everyChar (fun c => negb (Ascii.eqb c Regex.COLON)) gap = true ->
  everyChar (fun c => negb (Regex.isWord c)) sep = true ->
  headIs Regex.isWord value = true ->
  everyChar plainChar value = true ->
  headIs plainChar rest = false ->
  Regex.search (Regex.fieldPattern label)
    (word ++ gap ++ ":" ++ sep ++ value ++ rest)
  = Some (letters word ++ [gap; ":"; sep; value])%list.
Proof.
  intros Hword Hgap Hsep Hhead Hvalue Hrest.
  apply search_found. unfold Regex.fieldPattern.
  rewrite (literal_matches_case _ _ _ _ Hword).
  destruct value as [|v value]; [discriminate |].
  cbn [headIs] in Hhead. cbn [everyChar] in Hvalue.
  apply andb_prop in Hvalue as [Hv Hvalue].
  assert (Regex.matchAtoms
            [Regex.mkAtom (fun c => negb (Ascii.eqb c LF || Ascii.eqb c Regex.DOT))
               Regex.OneOrMore]
            (String v value ++ rest)
          = Some [String v value]) as Hcapture.
  { cbn [append]. rewrite matchAtoms_plus by exact Hv.
    now rewrite (greedy_to_end
                   (fun c => negb (Ascii.eqb c LF || Ascii.eqb c Regex.DOT))
                   _ _ Hvalue Hrest). }
  assert (Regex.matchAtoms
            [Regex.mkAtom (fun c => negb (Regex.isWord c)) Regex.ZeroOrMore;
             Regex.mkAtom (fun c => negb (Ascii.eqb c LF || Ascii.eqb c Regex.DOT))
               Regex.OneOrMore]
            (sep ++ String v value ++ rest)
          = Some [sep; String v value]) as Hsepm.
  { rewrite matchAtoms_star.
    rewrite (greedy_run _ _ sep (String v value ++ rest) [String v value]);
      [reflexivity | exact Hsep | | exact Hcapture].
    cbn [append headIs]. now rewrite Hhead. }
  rewrite matchAtoms_star.
  rewrite (greedy_run _ _ gap (":" ++ sep ++ String v value ++ rest)
             [":"; sep; String v value]); [reflexivity | exact Hgap | reflexivity |].
  change (":" ++ sep ++ String v value ++ rest)
    with (String Regex.COLON (sep ++ String v value ++ rest)).
  rewrite matchAtoms_once by reflexivity. now rewrite Hsepm.
Qed.

(** X14. Reading a field. When the answer starts with the words
    "suggested name" (resp. "image") in any case of letters, then any text
    without a colon, a colon, any characters that are not letters, digits
    or underscores, and then a value that begins with a letter, digit or
    underscore and runs up to a full stop, a line break or the end of the
    answer, the token name (resp. the image description) is that value
    without the white space at its end. *)
Theorem field_value_read :
  forall (word gap sep value rest : string),
    everyChar (fun c => negb (Ascii.eqb c Regex.COLON)) gap = true ->
    everyChar (fun c => negb (Regex.isWord c)) sep = true ->
    headIs Regex.isWord value = true ->
    everyChar plainChar value = true ->
    headIs plainChar rest = false ->
    (JS.toUpperCase word = "SUGGESTED NAME" ->
     Select.tokenName (Some (word ++ gap ++ ":" ++ sep ++ value ++ rest))
     = Select.trimEnd value)
    /\ (JS.toUpperCase word = "IMAGE" ->
        Select.imageDescription (Some (word ++ gap ++ ":" ++ sep ++ value ++ rest))
        = Select.trimEnd value).
Proof.
  intros word gap sep value rest Hgap Hsep Hhead Hvalue Hrest.
  assert (Select.trim value = Select.trimEnd value) as Htrim.
  { unfold Select.trim. rewrite trimStart_id; [reflexivity |].
    destruct value as [|v value]; [reflexivity |].
    cbn [headIs] in *. now apply word_not_space. }
  split; intro Hword.
  - unfold Select.tokenName, Select.matchResponse.
    rewrite (field_matches "suggested name" word gap sep value rest)
      by (try assumption; rewrite Hword; reflexivity).
    unfold Regex.group1.
    change (letters word ++ [gap; ":"; sep; value])%list
      with (letters word ++ ([gap; ":"; sep] ++ [value]))%list.
    now rewrite app_assoc, last_last.
  - unfold Select.imageDescription, Select.matchResponse.
    rewrite (field_matches "image" word gap sep value rest)
      by (try assumption; rewrite Hword; reflexivity).
    unfold Regex.group1.
    change (letters word ++ [gap; ":"; sep; value])%list
      with (letters word ++ ([gap; ":"; sep] ++ [value]))%list.
    now rewrite app_assoc, last_last.
Qed.

Lemma field_value_read_witness :
  Select.tokenName
    (Some ("Suggested Name" ++ " (catchy)" ++ ":" ++ " **" ++ "MoonCat Coin  "
           ++ ". It is catchy."))
  = "MoonCat Coin".
Proof.
  exact (proj1 (field_value_read "Suggested Name" " (catchy)" " **"
                  "MoonCat Coin  " ". It is catchy."
                  eq_refl eq_refl eq_refl eq_refl eq_refl)
               eq_refl).
Defined.
